(* ===== verification/_CoqProject ===== *)
-Q . S2P
Prelude.v
Config.v
Instruction.v
Distribution.v
BuildSM.v
Disasm.v
RegEquiv.v
ResultHash.v
Census.v
