(* ===== verification/Prelude.v ===== *)
(** * A verification development of the ironlight instruction layer

    The program is [src/ironlight/src/instruction.rs] (the instruction
    layer of a RandomX-style proof-of-work VM) and
    [src/wrapper/src/result_hash.rs] (the result buffer handed to the
    native hash routine). Its parts and how they meet:

    - [struct Instruction] (opcode, dst, src, mod_ bytes and a u32
      immediate) with pure accessors for the modifier's bit fields and the
      address space a load or store uses ([get_address_reg],
      [get_address_reg_dst]); the store rule reads the external constant
      [STORE_L3_CONDITION].
    - [NAMES_FREQS], 30 (mnemonic, weight) pairs, flattened at compile time
      by [const fn build_instruction_array] into [INSTR_NAMES], the 256-slot
      table that maps an opcode byte to its mnemonic.
    - [impl Display for Instruction]: reduces the register bytes modulo the
      external [REGISTER_COUNT as u8], looks the mnemonic up in
      [INSTR_NAMES] and prints one template per mnemonic family.
    - [ToRawMut for ResultHash]: an all-zero buffer and a raw pointer to its
      bytes, through which native code writes the hash.

    ** Files

    - [Prelude.v] (this file): Rust's [Result] as [result] with stdpp's
      monad notation; u8/u32 values as [Z] with the range predicate
      [x ∈w w] and the casts written out ([as_u8], [u32_as_i32],
      [u8_as_i32]); Rust's [Display] of integers ([fmt_u], [fmt_i], through
      the Standard Library's decimal strings) with a reader ([parse_u],
      [parse_i]) and the round-trip lemmas; the hint and rewrite databases
      [ironlight], [ironlight_rw], [ironlight_str]; list lemmas on filters
      and [seqZ].
    - [Config.v]: the class [VMConfig] of the two external constants (the
      interface between the VM configuration and this layer) and its
      RandomX instance (8 registers, threshold 14). Every definition below
      takes the configuration as a [Context] of its Section, and every
      general theorem holds for every configuration;
      [register_reduction_exact] shows when the cast [REGISTER_COUNT as u8]
      reduces registers as the spec says.
    - [Instruction.v]: the record, [new], [default], the accessors, the
      labels and the [repr(C)] byte layout ([to_bytes], [of_bytes]).
    - [Distribution.v]: [NAMES_FREQS]; the const fn's outer and inner
      [while] loops as [names_loop] and [fill_loop], with fuel, writing
      through the bounds-checked [array_store]; [build_array] for any
      declaration and [INSTR_NAMES]; the reference flattening [expand].
    - [BuildSM.v]: the same [const fn] as a small-step machine: a state
      ([BuildState]) is a program point ([Pc]: outer test, inner test,
      returned, panicked) with the locals [arr], [idx], [i], [j], and
      [build_step] has one rule per transition of the two loops, the
      failing bounds check of [arr[idx] = name] included. Its loop
      invariant [build_inv] and measure [measure] are the proof's, not the
      code's.
    - [Disasm.v]: [fmt], the [Display] method, with its two panics
      (remainder by zero, table index); the tagged families [Asm] that the
      spec's design notes ask for, [decode] and [print_asm]; a reader
      [parse_asm] of the disassembly text.
    - [RegEquiv.v]: [instr_equiv], equality of instructions up to the
      reduction of their register bytes, an [Equivalence] with [Proper]
      instances for [get_address_reg_dst] and (off the raw-[dst] arms)
      [classify]; a [Decision] instance decides it.
    - [ResultHash.v]: the trait [ToRawMut] as a class, its [ResultHash]
      instance, and the native write through the raw pointer.
    - [Census.v]: the three parts composed: the (opcode, modifier) byte
      pairs whose disassembly reads back as a store to L3.

    ** What is proved

    - The table: [build_array_spec] (the loops refine [expand]: the result
      for every declaration, success and failure), [build_instruction_array_ok]
      (the crate's table is the 256-slot flattening), [INSTR_NAMES_block]
      (each mnemonic's opcode range), [INSTR_NAMES_count] (each mnemonic has
      as many opcodes as its weight), [INSTR_NAMES_total] (no empty slot),
      [build_array_terminates], and [build_array_underweight_accepted] (a
      short declaration is silently padded: a divergence from the spec).
    - The table's loops as a machine: [build_inv_reachable] (the loop
      invariant holds in every reachable state, by induction on the
      reachability derivation), [build_terminates] (no infinite execution,
      and a final state is reached), [build_NAMES_FREQS_returns] (on the source table it returns
      [INSTR_NAMES]), [build_counters_bounded] (the [u8] counter [j] and
      [idx] never overflow), [build_step_count] (a returning run makes
      exactly [total + 2 * entries + 1] steps, 317 on the source table) and
      [build_panics_iff] (the build fails exactly when the weights exceed
      256, at [idx = 256] with the first 256 names written).
    - The accessors: [mod_fields_partition] (the three fields split and
      recombine the modifier byte), [store_load_asymmetry], [store_l3_share]
      (L3 stores are exactly the bytes from [16 * threshold], 32 of 256 for
      RandomX), [store_threshold_extremes] (every store goes to L3 exactly
      for thresholds up to 0, none exactly from 16 on), and
      [to_bytes_of_bytes] (every eight bytes are the layout of a
      well-formed instruction: no padding, no invalid pattern).
    - The disassembler (stated through [decode] and [print_asm], which
      re-express [fmt]'s dispatch; [fmt_as_decode] relates the two):
      [fmt_total] and [fmt_error_iff] (exactly when it
      panics, and with which error), [fmt_roundtrip] and
      [fmt_determines_decode] (the text gives back family and operands),
      [decode_registers_in_range], [decode_no_default_arm] (the NOP and
      default arms are dead), [decode_store_offset] (the store offset is the
      immediate read as an i32), [fmt_isub_r], [fmt_ineg_r_unreduced]
      (INEG_R prints an unreduced register), [fmt_normalize] (off the
      CFROUND and INEG_R arms the text depends on the registers only through
      their reduction), [classify_proper_iff] and [fmt_ineg_r_not_equiv_invariant]
      (CFROUND and INEG_R are exactly the families that break it, and
      every INEG_R instruction has a register-equivalent twin printed
      differently),
      [fmt_register_count_truncated] (a register count of 256 or more is
      truncated by the cast and misprints registers: a divergence from the
      spec).
    - The result buffer: its two operations are modelled, and no theorem
      is stated (see below).
    - The composition: [l3_store_census] (of the 65536 opcode and
      modifier byte pairs, exactly [16 * (256 - 16 * threshold)] print as a
      store to L3: the table's 16 [ISTORE] opcodes times the store rule's
      share; 512 for RandomX).

    ** Fuel and bounds

    [fill_loop] gets [freq + 1] units of fuel (it runs [freq] iterations
    and one exit test) and [names_loop] gets [length + 1]; [fill_loop_spec]
    and [names_loop_spec] show that this is enough for every declaration
    with non-negative weights, so [LoopFuelExhausted] never occurs
    ([build_array_terminates]). The machine of [BuildSM.v] has no fuel:
    its termination is proved with the measure [measure] (remaining writes
    plus two per remaining table entry plus one), which every step of a
    state satisfying the invariant decreases, by exactly one on every step
    but the panic ([measure_step_exact]), which gives the exact length of
    a run. Integers are kept at their Rust widths by
    [Instruction_wf]; the decimal printer is the Standard Library's, exact
    for every natural number.

    ** Not modelled

    The interpreter, the dataset and cache, the hash finalization and the
    CLI are outside the sources. The constants' modules are not in the
    sources either: they are the class [VMConfig]. [fmt]'s [Formatter] is a
    [String] sink and is not modelled as fallible: every arm is one
    [write!] whose [fmt::Result] the code returns unchanged, so a failing
    sink adds no behaviour of this code, only of the standard library's
    formatting machinery. Raw-pointer provenance and the FFI call are
    reduced to an offset into the buffer's own bytes; the aliasing
    [as_raw_mut] provides would then hold by construction, so no property
    of [ResultHash.v] is claimed. [RANDOMX_RESULT_SIZE] (32) and the
    threshold 14 of [randomx_config] are the values of the external
    crates (RandomX's [StoreL3Condition]); the spec gives only the register
    count 8, and every general theorem is parametric in them.

    ** Further work

    A class for the opcode-table interface the interpreter relies on,
    discharged by [INSTR_NAMES], once the interpreter's sources are
    available. *)

From stdpp Require Import base list strings numbers sets.
From Stdlib Require Import ZArith Lia Ascii DecimalString DecimalN.

(** ** Scope, results and the fallible-computation notation *)

Declare Scope ironlight_scope.
Delimit Scope ironlight_scope with il.

(** Rust's [Result]: a computation that either yields a value or stops with
    an error (a panic of the Rust program, or a compile-time evaluation
    failure of a [const fn]). *)
Inductive result (E A : Type) : Type :=
  | Ok (a : A)
  | Err (e : E).
Arguments Ok {E A} a.
Arguments Err {E A} e.

(** [result E] is a monad (stdpp's [MRet]/[MBind]), so the models of
    fallible Rust code read [x ← m; k], with Rust's [?] behaviour. *)
#[export] Instance result_ret {E} : MRet (result E) := fun A a => Ok a.
#[export] Instance result_bind {E} : MBind (result E) :=
  fun A B k m => match m with Ok a => k a | Err e => Err e end.

#[export] Instance result_fmap {E} : FMap (result E) :=
  fun A B f m => match m with Ok a => Ok (f a) | Err e => Err e end.


(** ** Machine-width integers kept as [Z]

    A Rust [uN] value is an integer [x] with [0 <= x < 2^N]; [as] casts
    between widths are written out as the wrap-around they perform. *)

Open Scope Z_scope.

Definition in_width (w x : Z) : Prop := 0 <= x < 2 ^ w.

(** [x ∈w 8] reads "x is a u8 value". *)
Notation "x ∈w w" := (in_width w x) (at level 70, no associativity) : ironlight_scope.
Open Scope ironlight_scope.

#[export] Instance in_width_dec w x : Decision (in_width w x).
Proof. unfold in_width. apply _. Defined.

(** [e as u8] for an unsigned [e] of a wider type: keep the low 8 bits. *)
Definition as_u8 (x : Z) : Z := x mod 2 ^ 8.

(** [e as i32] for [e : u32]: the same 32 bits read in two's complement. *)
Definition u32_as_i32 (x : Z) : Z := if x <? 2 ^ 31 then x else x - 2 ^ 32.

(** [e as i32] for [e : u8]: zero extension, the value is unchanged. *)
Definition u8_as_i32 (x : Z) : Z := x.


(** ** Rust's [Display] for integers

    [write!(f, "{}", n)] prints an unsigned integer in decimal with no
    leading zero, and a signed one with a leading ["-"] when negative. The
    digits come from the Standard Library's [N.to_uint], whose output is
    normalised (no leading zero, ["0"] for zero). *)

Definition fmt_u (n : Z) : string :=
  NilEmpty.string_of_uint (N.to_uint (Z.to_N n)).

Definition fmt_i (n : Z) : string :=
  if n <? 0 then "-" +:+ fmt_u (- n) else fmt_u n.


(** The reading side, used to show that rendered text determines the
    numbers printed in it: a greedy reader of a decimal digit run. *)

Definition digit_cons (c : ascii) : option (Decimal.uint -> Decimal.uint) :=
  match c with
  | "0" => Some Decimal.D0 | "1" => Some Decimal.D1 | "2" => Some Decimal.D2
  | "3" => Some Decimal.D3 | "4" => Some Decimal.D4 | "5" => Some Decimal.D5
  | "6" => Some Decimal.D6 | "7" => Some Decimal.D7 | "8" => Some Decimal.D8
  | "9" => Some Decimal.D9
  | _ => None
  end%char.

Definition starts_with_digit (s : string) : bool :=
  match s with
  | String c _ => if digit_cons c is Some _ then true else false
  | EmptyString => false
  end.

Fixpoint read_uint (s : string) : Decimal.uint * string :=
  match s with
  | String c s' =>
      match digit_cons c with
      | Some D => let '(d, r) := read_uint s' in (D d, r)
      | None => (Decimal.Nil, s)
      end
  | EmptyString => (Decimal.Nil, EmptyString)
  end.

(** Parse an unsigned decimal at the head of [s]: its value and the rest. *)
Definition parse_u (s : string) : option (Z * string) :=
  match read_uint s with
  | (Decimal.Nil, _) => None
  | (d, r) => Some (Z.of_N (N.of_uint d), r)
  end.

(** Parse a signed decimal: an optional ["-"] then an unsigned one. *)
Definition parse_i (s : string) : option (Z * string) :=
  match s with
  | String "-"%char s' =>
      match parse_u s' with Some (n, r) => Some (- n, r) | None => None end
  | _ => parse_u s
  end.

(** Strip a literal prefix. *)
Fixpoint strip_prefix (p s : string) : option string :=
  match p, s with
  | EmptyString, _ => Some s
  | String a p', String b s' => if ascii_dec a b then strip_prefix p' s' else None
  | String _ _, EmptyString => None
  end.

(** ** Results and fixed-width integers *)


Lemma as_u8_in_width x : in_width 8 (as_u8 x).
Proof. unfold in_width, as_u8. apply Z.mod_pos_bound. lia. Qed.

Lemma as_u8_small x : in_width 8 x -> as_u8 x = x.
Proof. unfold in_width, as_u8. intros. apply Z.mod_small. lia. Qed.

Lemma u32_as_i32_range x : in_width 32 x -> - 2 ^ 31 <= u32_as_i32 x < 2 ^ 31.
Proof. unfold in_width, u32_as_i32. intros. destruct (Z.ltb_spec x (2 ^ 31)); lia. Qed.

Lemma u32_as_i32_wrap x : in_width 32 x -> u32_as_i32 x mod 2 ^ 32 = x.
Proof.
  unfold in_width, u32_as_i32. intros Hx.
  destruct (Z.ltb_spec x (2 ^ 31)).
  - apply Z.mod_small. lia.
  - replace (x - 2 ^ 32) with (x + (-1) * 2 ^ 32) by lia.
    rewrite Z.mod_add by lia. apply Z.mod_small. lia.
Qed.

(** [&] with a mask of [k] low bits keeps a value below [2^k]. *)
Lemma land_ones_bound x k : 0 <= k -> 0 <= Z.land x (Z.ones k) < 2 ^ k.
Proof. intros. rewrite Z.land_ones by lia. apply Z.mod_pos_bound. lia. Qed.

(** ** Decimal printing and reading are inverse *)

Arguments fmt_u : simpl never.
Arguments fmt_i : simpl never.
Arguments parse_u : simpl never.
Arguments parse_i : simpl never.

Lemma append_string_cons (c : ascii) (s t : string) :
  String c s +:+ t = String c (s +:+ t).
Proof. reflexivity. Qed.

Lemma append_string_nil (t : string) : EmptyString +:+ t = t.
Proof. reflexivity. Qed.

Lemma string_app_nil_r (s : string) : s +:+ EmptyString = s.
Proof. induction s as [|c s IH]; [reflexivity | rewrite append_string_cons; f_equal; exact IH]. Qed.

Create HintDb ironlight discriminated.
Create Rewrite HintDb ironlight_rw.
Create Rewrite HintDb ironlight_str.

Lemma to_uint_not_nil (n : N) : N.to_uint n <> Decimal.Nil.
Proof.
  intros E. pose proof (Unsigned.of_to n) as H. rewrite E in H.
  simpl in H. subst n. discriminate E.
Qed.

Lemma read_uint_app (d : Decimal.uint) (rest : string) :
  starts_with_digit rest = false ->
  read_uint (NilEmpty.string_of_uint d +:+ rest) = (d, rest).
Proof.
  intros Hr. induction d; simpl;
    try (rewrite IHd; reflexivity).
  destruct rest as [|c r]; [reflexivity|].
  simpl in *. destruct (digit_cons c); [discriminate|reflexivity].
Qed.

(** Every run of at least one digit printed by [fmt_u] reads back. *)
Lemma parse_u_fmt_u (n : Z) (rest : string) :
  0 <= n -> starts_with_digit rest = false ->
  parse_u (fmt_u n +:+ rest) = Some (n, rest).
Proof.
  intros Hn Hr. unfold parse_u, fmt_u. rewrite read_uint_app by exact Hr.
  pose proof (to_uint_not_nil (Z.to_N n)) as Hnil.
  destruct (N.to_uint (Z.to_N n)) eqn:E; try congruence;
    rewrite <- E, Unsigned.of_to, Z2N.id by lia; reflexivity.
Qed.

(** The first character of a printed unsigned number is a digit. *)
Lemma fmt_u_head (n : Z) :
  exists c s, fmt_u n = String c s /\ digit_cons c <> None.
Proof.
  unfold fmt_u. pose proof (to_uint_not_nil (Z.to_N n)) as Hnil.
  destruct (N.to_uint (Z.to_N n)); try congruence;
    do 2 eexists; split; [reflexivity | discriminate | reflexivity | discriminate
      | reflexivity | discriminate | reflexivity | discriminate | reflexivity
      | discriminate | reflexivity | discriminate | reflexivity | discriminate
      | reflexivity | discriminate | reflexivity | discriminate | reflexivity
      | discriminate].
Qed.

Lemma parse_i_fmt_i (n : Z) (rest : string) :
  starts_with_digit rest = false ->
  parse_i (fmt_i n +:+ rest) = Some (n, rest).
Proof.
  intros Hr. unfold fmt_i. destruct (Z.ltb_spec n 0).
  - change (("-" +:+ fmt_u (- n)) +:+ rest) with (String "-" (fmt_u (- n) +:+ rest)).
    unfold parse_i. cbv beta iota.
    rewrite parse_u_fmt_u by (lia || exact Hr). f_equal. f_equal. lia.
  - destruct (fmt_u_head n) as (c & s & Hs & Hc).
    unfold parse_i. rewrite <- (parse_u_fmt_u n rest) by (lia || exact Hr).
    rewrite Hs. simpl.
    destruct c as [[] [] [] [] [] [] [] []]; try reflexivity; simpl in Hc; congruence.
Qed.

Lemma fmt_u_inj (a b : Z) : 0 <= a -> 0 <= b -> fmt_u a = fmt_u b -> a = b.
Proof.
  intros Ha Hb E.
  pose proof (parse_u_fmt_u a EmptyString Ha eq_refl) as Pa.
  rewrite E, parse_u_fmt_u in Pa by (lia || reflexivity). congruence.
Qed.

Lemma fmt_i_inj (a b : Z) : fmt_i a = fmt_i b -> a = b.
Proof.
  intros E. pose proof (parse_i_fmt_i a EmptyString eq_refl) as Pa.
  rewrite E, parse_i_fmt_i in Pa by reflexivity. congruence.
Qed.

(** A printed number never starts with a given non-digit character. *)
Lemma strip_prefix_fmt_u (c : ascii) (n : Z) (rest : string) :
  digit_cons c = None -> strip_prefix (String c EmptyString) (fmt_u n +:+ rest) = None.
Proof.
  intros Hc. destruct (fmt_u_head n) as (c' & s & -> & Hc'). simpl.
  destruct (ascii_dec c c') as [<-|]; [congruence | reflexivity].
Qed.

Lemma strip_prefix_app (p s : string) : strip_prefix p (p +:+ s) = Some s.
Proof.
  induction p as [|a p IH]; simpl; [reflexivity|].
  destruct (ascii_dec a a); [exact IH | congruence].
Qed.

#[export] Hint Resolve as_u8_in_width land_ones_bound : ironlight.
Lemma parse_u_fmt_u_end (n : Z) : 0 <= n -> parse_u (fmt_u n) = Some (n, EmptyString).
Proof. intros Hn. rewrite <- (string_app_nil_r (fmt_u n)). by apply parse_u_fmt_u. Qed.

Lemma parse_i_fmt_i_end (n : Z) : parse_i (fmt_i n) = Some (n, EmptyString).
Proof. rewrite <- (string_app_nil_r (fmt_i n)). by apply parse_i_fmt_i. Qed.

#[export] Hint Rewrite parse_u_fmt_u parse_i_fmt_i parse_u_fmt_u_end parse_i_fmt_i_end
  strip_prefix_app using (lia || reflexivity) : ironlight_rw.
(** Normalising appends of literal strings ([String.append] is [simpl
    never] under stdpp). *)
#[export] Hint Rewrite append_string_cons append_string_nil : ironlight_str.

(** ** Generic list lemmas shared by the components *)

Section Filters.
Context {A : Type} (P Q : A -> Prop) `{!∀ x, Decision (P x)} `{!∀ x, Decision (Q x)}.

Lemma filter_all (l : list A) : Forall P l -> filter P l = l.
Proof.
  induction 1 as [|x l Hx _ IH]; [reflexivity|].
  rewrite filter_cons_True by exact Hx. by rewrite IH.
Qed.

Lemma filter_none (l : list A) : Forall (fun x => ~ P x) l -> filter P l = [].
Proof.
  induction 1 as [|x l Hx _ IH]; [reflexivity|].
  rewrite filter_cons_False by exact Hx. exact IH.
Qed.

Lemma filter_ext_in (l : list A) :
  (forall x, x ∈ l -> P x <-> Q x) -> filter P l = filter Q l.
Proof.
  induction l as [|x l IH]; intros Hext; [reflexivity|].
  rewrite !filter_cons.
  rewrite IH by (intros y Hy; apply Hext; by apply list_elem_of_further).
  assert (P x <-> Q x) by (apply Hext; apply list_elem_of_here).
  do 2 case_decide; tauto.
Qed.
End Filters.

(** Counting the pairs of a product that satisfy a predicate on each
    component: the counts multiply. *)
Section Products.
Context {A B : Type} (P : A -> Prop) (Q : B -> Prop)
  `{!∀ x, Decision (P x)} `{!∀ y, Decision (Q y)}.

Lemma count_pairs_row (a : A) (lb : list B) :
  length (filter (fun p => P p.1 /\ Q p.2) (map (fun y => (a, y)) lb)) =
  if decide (P a) then length (filter Q lb) else 0%nat.
Proof.
  induction lb as [|y lb IH]; simpl; [by case_decide|].
  rewrite !filter_cons. simpl. repeat case_decide; simpl in *; rewrite ?IH; tauto || lia.
Qed.

Lemma count_list_prod (la : list A) (lb : list B) :
  length (filter (fun p => P p.1 /\ Q p.2) (list_prod la lb)) =
  (length (filter P la) * length (filter Q lb))%nat.
Proof.
  induction la as [|a la IH]; [reflexivity|]. simpl.
  rewrite filter_app, length_app, IH, count_pairs_row, filter_cons.
  case_decide; simpl; lia.
Qed.
End Products.

(** Turn a membership in [seqZ] (stdpp's [∈] or Stdlib's [In]) into bounds. *)
Ltac seqZ_mem H :=
  first [ apply elem_of_seqZ in H
        | apply (proj2 (list_elem_of_In _ _)), elem_of_seqZ in H ].

(** How many of [0 .. n-1] lie at or above a threshold [t]. *)
Lemma count_above_threshold (t n : Z) :
  0 <= t <= n -> length (filter (fun m => t <= m) (seqZ 0 n)) = Z.to_nat (n - t).
Proof.
  intros Ht. replace n with (t + (n - t)) at 1 by lia.
  rewrite seqZ_app, filter_app by lia.
  rewrite filter_none, filter_all.
  - simpl. rewrite length_seqZ. reflexivity.
  - apply Forall_forall. intros x Hx. seqZ_mem Hx. lia.
  - apply Forall_forall. intros x Hx. seqZ_mem Hx. lia.
Qed.
