(* ===== verification/Config.v ===== *)
(** * The external constants the instruction layer is compiled against

    [src/ironlight/src/instruction.rs] imports two constants from modules
    that are not part of the sources ([crate::registers::REGISTER_COUNT],
    a [usize], and [crate::constants::STORE_L3_CONDITION], an [i32]). They
    form the interface between the VM configuration and this layer: the
    class [VMConfig] states them, every definition of [Instruction.v] and
    [Disasm.v] is parametric in an instance, and the general theorems hold
    for every instance. [randomx_config] is the configuration of the
    RandomX reference VM the crate mirrors (8 integer registers, stores go
    to L3 when the condition nibble is at least 14); the concrete examples
    are computed with it. [register_reduction_exact] states for which
    register counts the [u8] cast of [fmt]'s reduction is harmless. *)

From stdpp Require Import base.
From Stdlib Require Import ZArith Lia.
From S2P Require Import Prelude.

Open Scope Z_scope.

Class VMConfig := {
  REGISTER_COUNT : Z;
  STORE_L3_CONDITION : Z;
}.

(** The reference values (registers.rs and constants.rs of the crate,
    which mirror RandomX's [RegistersCount] and [StoreL3Condition]). *)
#[export] Instance randomx_config : VMConfig := {|
  REGISTER_COUNT := 8;
  STORE_L3_CONDITION := 14;
|}.

(** A configuration whose register count is a multiple of 256: the cast
    [REGISTER_COUNT as u8] wraps it to 0 (used to exhibit the panic of
    [Disasm.fmt]). *)
Definition wide_register_config : VMConfig := {|
  REGISTER_COUNT := 256;
  STORE_L3_CONDITION := 14;
|}.

(** A configuration with more registers than a [u8] holds and not a
    multiple of 256: the cast wraps 264 to 8. *)
Definition register264_config : VMConfig := {|
  REGISTER_COUNT := 264;
  STORE_L3_CONDITION := 14;
|}.

Section Divisor.
Context `{VMConfig}.

(** [REGISTER_COUNT as u8], the divisor of [fmt]'s register reduction:
    a [usize] cast to [u8] keeps its low byte. *)
Definition register_divisor : Z := as_u8 REGISTER_COUNT.

Lemma register_divisor_u8 : register_divisor ∈w 8.
Proof. apply as_u8_in_width. Qed.

Lemma register_divisor_small :
  REGISTER_COUNT ∈w 8 -> register_divisor = REGISTER_COUNT.
Proof. apply as_u8_small. Qed.
End Divisor.

#[export] Hint Resolve register_divisor_u8 : ironlight.

Section DivisorTheorems.
Context `{VMConfig}.

(** C29: for a positive register count whose cast to [u8] is not zero
    (a zero divisor makes [fmt] panic), reducing a register byte modulo
    [REGISTER_COUNT as u8] (what [fmt] does) agrees with reducing it
    modulo [REGISTER_COUNT] (what the spec describes) on every byte exactly
    when the count is below 256; from 256 on, the byte 255 is reduced
    differently. *)
Theorem register_reduction_exact :
  0 < REGISTER_COUNT -> register_divisor <> 0 ->
  (forall b, b ∈w 8 -> b mod register_divisor = b mod REGISTER_COUNT) <->
  REGISTER_COUNT < 256.
Proof.
  intros Hpos Hnz. split.
  - intros Hall. destruct (Z.lt_ge_cases REGISTER_COUNT 256) as [|Hge]; [assumption|].
    exfalso. specialize (Hall 255 ltac:(unfold in_width; lia)).
    rewrite (Z.mod_small 255 REGISTER_COUNT) in Hall by lia.
    pose proof register_divisor_u8 as Hd. unfold in_width in Hd.
    assert (Hdp : 0 < register_divisor) by lia.
    pose proof (Z.mod_pos_bound 255 register_divisor Hdp). lia.
  - intros Hlt b _. rewrite register_divisor_small; [reflexivity | unfold in_width; lia].
Qed.
End DivisorTheorems.

Lemma register_reduction_exact_witness :
  0 < REGISTER_COUNT /\ register_divisor <> 0 /\
  (forall b, b ∈w 8 -> b mod register_divisor = b mod REGISTER_COUNT).
Proof.
  assert (Hpos : 0 < REGISTER_COUNT) by (vm_compute; reflexivity).
  assert (Hnz : register_divisor <> 0) by (vm_compute; discriminate).
  split; [exact Hpos|]. split; [exact Hnz|].
  apply (register_reduction_exact Hpos Hnz). vm_compute. reflexivity.
Defined.
