(* ===== verification/Instruction.v ===== *)
(** * [struct Instruction] and its field accessors

    Models lines 20-144 of [src/ironlight/src/instruction.rs]: the
    [#[repr(C, align(8))]] record, its constructor and [Default], the
    modifier bit fields ([get_mod_mem], [get_mod_shift], [get_mod_cond]) and
    the two address-space selectors ([get_address_reg] for loads,
    [get_address_reg_dst] for stores). The [u8] and [u32] fields are [Z]
    values; [Instruction_wf] says they are in range. The memory layout of the
    record is modelled as its eight bytes ([to_bytes]/[of_bytes]). *)

From stdpp Require Import base list strings.
From Stdlib Require Import ZArith Lia.
From S2P Require Import Prelude Config.

Open Scope Z_scope.

(** The three static labels of the address spaces. *)
Definition L1_LABEL : string := "L1".
Definition L2_LABEL : string := "L2".
Definition L3_LABEL : string := "L3".

Record Instruction := mkInstruction {
  opcode : Z;   (* u8 *)
  dst : Z;      (* u8 *)
  src : Z;      (* u8 *)
  mod_ : Z;     (* u8 *)
  imm32 : Z;    (* u32 *)
}.

#[export] Instance Instruction_eq_dec : EqDecision Instruction.
Proof. solve_decision. Defined.

(** Every field holds a value of its Rust type. *)
Definition Instruction_wf (i : Instruction) : Prop :=
  opcode i ∈w 8 /\ dst i ∈w 8 /\ src i ∈w 8 /\ mod_ i ∈w 8 /\ imm32 i ∈w 32.

#[export] Instance Instruction_wf_dec i : Decision (Instruction_wf i).
Proof. unfold Instruction_wf. apply _. Defined.

Definition new (opcode dst src mod_ imm32 : Z) : Instruction :=
  {| opcode := opcode; dst := dst; src := src; mod_ := mod_; imm32 := imm32 |}.

Definition default : Instruction := new 0 0 0 0 0.

Section Accessors.
Context `{VMConfig}.
Implicit Types i : Instruction.

Definition get_imm32 i : Z := imm32 i.

Definition get_mod_mem i : Z := Z.land (mod_ i) 3.

Definition get_mod_shift i : Z := Z.land (Z.shiftr (mod_ i) 2) 3.

Definition get_mod_cond i : Z := u8_as_i32 (Z.shiftr (mod_ i) 4).

Definition get_address_reg i : string :=
  if negb (get_mod_mem i =? 0) then L1_LABEL else L2_LABEL.

Definition get_address_reg_dst i : string :=
  if get_mod_cond i <? STORE_L3_CONDITION then
    if negb (get_mod_mem i =? 0) then L1_LABEL else L2_LABEL
  else L3_LABEL.
End Accessors.

(** The [repr(C)] layout: the four bytes at offsets 0 to 3, then [imm32] at
    offset 4 (aligned, no padding), stored little-endian as on the targets
    the crate builds for. *)
Definition imm_byte (x : Z) (k : Z) : Z := Z.land (Z.shiftr x (8 * k)) 255.

Definition to_bytes (i : Instruction) : list Z :=
  [opcode i; dst i; src i; mod_ i;
   imm_byte (imm32 i) 0; imm_byte (imm32 i) 1; imm_byte (imm32 i) 2; imm_byte (imm32 i) 3].

Definition of_bytes (bs : list Z) : option Instruction :=
  match bs with
  | [o; d; s; m; b0; b1; b2; b3] =>
      Some (new o d s m (b0 + 2 ^ 8 * b1 + 2 ^ 16 * b2 + 2 ^ 24 * b3))
  | _ => None
  end.

(** ** Bit fields of the modifier byte *)

Section ModifierFields.
Context `{VMConfig}.
Implicit Types i : Instruction.

(** The three accessors in arithmetic form: low two bits, next two bits,
    high nibble. *)
Lemma mod_fields_arith i :
  get_mod_mem i = mod_ i mod 4 /\
  get_mod_shift i = (mod_ i / 4) mod 4 /\
  get_mod_cond i = mod_ i / 16.
Proof.
  unfold get_mod_mem, get_mod_shift, get_mod_cond, u8_as_i32.
  change 3 with (Z.ones 2).
  rewrite !Z.land_ones, !Z.shiftr_div_pow2 by lia. repeat split.
Qed.

Lemma get_mod_cond_range i : mod_ i ∈w 8 -> 0 <= get_mod_cond i < 16.
Proof.
  unfold in_width. intros Hm. destruct (mod_fields_arith i) as (_ & _ & ->).
  split; [apply Z.div_pos | apply Z.div_lt_upper_bound]; lia.
Qed.
End ModifierFields.

(** ** Byte layout *)

Lemma imm_byte_arith (x k : Z) : 0 <= k -> imm_byte x k = (x / 2 ^ (8 * k)) mod 256.
Proof.
  intros Hk. unfold imm_byte. change 255 with (Z.ones 8).
  rewrite Z.land_ones, Z.shiftr_div_pow2 by lia. reflexivity.
Qed.

Lemma byte_digit_lo (a y : Z) : 0 <= a < 256 -> (a + 256 * y) mod 256 = a.
Proof. intros. rewrite Z.mul_comm, Z.mod_add by lia. apply Z.mod_small. lia. Qed.

Lemma byte_digit_hi (a y : Z) : 0 <= a < 256 -> (a + 256 * y) / 256 = y.
Proof. intros. rewrite Z.mul_comm, Z.div_add by lia. rewrite Z.div_small by lia. lia. Qed.

Lemma imm_bytes_split (b0 b1 b2 b3 : Z) :
  b0 ∈w 8 -> b1 ∈w 8 -> b2 ∈w 8 -> b3 ∈w 8 ->
  let x := b0 + 2 ^ 8 * b1 + 2 ^ 16 * b2 + 2 ^ 24 * b3 in
  [imm_byte x 0; imm_byte x 1; imm_byte x 2; imm_byte x 3] = [b0; b1; b2; b3].
Proof.
  intros H0 H1 H2 H3 x. unfold in_width in H0, H1, H2, H3.
  assert (Ex : x = b0 + 256 * (b1 + 256 * (b2 + 256 * b3))) by (unfold x; lia).
  rewrite !imm_byte_arith, Ex by lia.
  change (2 ^ (8 * 2)) with (256 * 256). change (2 ^ (8 * 3)) with (256 * 256 * 256).
  rewrite <- !Z.div_div by lia. change (2 ^ (8 * 0)) with 1. change (2 ^ (8 * 1)) with 256.
  rewrite Z.div_1_r, !byte_digit_hi, !byte_digit_lo by lia.
  rewrite Z.mod_small by lia. reflexivity.
Qed.

(** C19: Conversely every eight bytes are the layout of the instruction they
    decode to, which is well formed: the record has no padding and no
    invalid bit pattern. *)
Theorem to_bytes_of_bytes (bs : list Z) :
  length bs = 8%nat -> Forall (in_width 8) bs ->
  exists i, of_bytes bs = Some i /\ Instruction_wf i /\ to_bytes i = bs.
Proof.
  intros Hlen Hall.
  destruct bs as [|o [|d [|s [|m [|b0 [|b1 [|b2 [|b3 [|? ?]]]]]]]]]; try discriminate.
  rewrite !Forall_cons in Hall.
  destruct Hall as (Ho & Hd & Hs & Hm & H0 & H1 & H2 & H3 & _).
  eexists; split; [reflexivity|]. unfold Instruction_wf, new, to_bytes; simpl.
  pose proof (imm_bytes_split b0 b1 b2 b3 H0 H1 H2 H3) as Hb. simpl in Hb.
  injection Hb as -> -> -> ->.
  unfold in_width in *. repeat split; lia.
Qed.

(** ** Properties of the modifier fields and of the address spaces *)

Section AddressSpaces.
Context `{VMConfig}.
Implicit Types i : Instruction.

(** [get_mod_cond i < T] is a comparison of the whole byte with [16 T]. *)
Lemma get_mod_cond_lt_iff i (T : Z) :
  get_mod_cond i < T <-> mod_ i < 16 * T.
Proof.
  destruct (mod_fields_arith i) as (_ & _ & ->).
  pose proof (Z.div_mod (mod_ i) 16 ltac:(lia)).
  pose proof (Z.mod_pos_bound (mod_ i) 16 ltac:(lia)). lia.
Qed.

(** C9: the modifier byte splits into its three fields, each in its range,
    and the fields put back together give the byte: the three accessors
    lose no bit and share no bit. *)
Theorem mod_fields_partition i :
  mod_ i ∈w 8 ->
  0 <= get_mod_mem i < 4 /\ 0 <= get_mod_shift i < 4 /\ 0 <= get_mod_cond i < 16 /\
  mod_ i = get_mod_mem i + 4 * get_mod_shift i + 16 * get_mod_cond i.
Proof.
  intros Hm. pose proof (get_mod_cond_range i Hm) as Hc.
  destruct (mod_fields_arith i) as (-> & -> & Ec). rewrite Ec in *.
  unfold in_width in Hm.
  pose proof (Z.div_mod (mod_ i) 4 ltac:(lia)).
  pose proof (Z.div_mod (mod_ i / 4) 4 ltac:(lia)).
  pose proof (Z.mod_pos_bound (mod_ i) 4 ltac:(lia)).
  pose proof (Z.mod_pos_bound (mod_ i / 4) 4 ltac:(lia)).
  rewrite Z.div_div in * by lia. change (4 * 4) with 16 in *. lia.
Qed.

Lemma load_space_cases i : get_address_reg i = L1_LABEL \/ get_address_reg i = L2_LABEL.
Proof. unfold get_address_reg. destruct (negb _); auto. Qed.

Lemma store_space_below i :
  get_mod_cond i < STORE_L3_CONDITION -> get_address_reg_dst i = get_address_reg i.
Proof.
  intros Hc. unfold get_address_reg_dst, get_address_reg.
  by rewrite (proj2 (Z.ltb_lt _ _) Hc).
Qed.

Lemma store_space_above i :
  STORE_L3_CONDITION <= get_mod_cond i -> get_address_reg_dst i = L3_LABEL.
Proof.
  intros Hc. unfold get_address_reg_dst. by rewrite (proj2 (Z.ltb_ge _ _) Hc).
Qed.

(** C10: loads only ever address L1 or L2; a store addresses the same space
    as a load while the condition nibble is below [STORE_L3_CONDITION], and
    L3 from there on. *)
Theorem store_load_asymmetry i :
  (get_address_reg i = L1_LABEL \/ get_address_reg i = L2_LABEL) /\
  (get_mod_cond i < STORE_L3_CONDITION -> get_address_reg_dst i = get_address_reg i) /\
  (STORE_L3_CONDITION <= get_mod_cond i -> get_address_reg_dst i = L3_LABEL).
Proof.
  split; [apply load_space_cases|].
  split; [apply store_space_below | apply store_space_above].
Qed.

(** A store targets L3 exactly when the modifier byte is at least
    [16 * STORE_L3_CONDITION]. *)
Lemma store_l3_iff i :
  get_address_reg_dst i = L3_LABEL <-> 16 * STORE_L3_CONDITION <= mod_ i.
Proof.
  destruct (Z.lt_ge_cases (get_mod_cond i) STORE_L3_CONDITION) as [Hc|Hc].
  - rewrite (store_space_below i Hc). pose proof (proj1 (get_mod_cond_lt_iff i _) Hc).
    split; [|lia]. destruct (load_space_cases i) as [-> | ->]; discriminate.
  - rewrite (store_space_above i Hc). split; [|reflexivity]. intros _.
    destruct (Z.lt_ge_cases (mod_ i) (16 * STORE_L3_CONDITION)) as [Hm|]; [|lia].
    apply get_mod_cond_lt_iff in Hm. lia.
Qed.

(** C11: a store targets L3 exactly when the modifier byte is at least
    [16 * STORE_L3_CONDITION]; so for a threshold in [0, 16], exactly
    [256 - 16 * STORE_L3_CONDITION] of the 256 modifier bytes send a store
    to L3 (32 of 256, one store in eight, for RandomX's threshold 14). *)
Theorem store_l3_share :
  0 <= STORE_L3_CONDITION <= 16 ->
  (forall i, get_address_reg_dst i = L3_LABEL <-> 16 * STORE_L3_CONDITION <= mod_ i) /\
  length (filter (fun m => get_address_reg_dst (new 0 0 0 m 0) = L3_LABEL) (seqZ 0 256))
  = Z.to_nat (256 - 16 * STORE_L3_CONDITION).
Proof.
  intros HT. split; [exact store_l3_iff|].
  rewrite <- count_above_threshold by lia.
  f_equal. apply filter_ext_in. intros m _. apply store_l3_iff.
Qed.
(** C28: the thresholds at which the store rule degenerates, for [u8]
    modifiers and any [i32] threshold: every store goes to L3 exactly when
    [STORE_L3_CONDITION <= 0], and no store goes to L3 (each uses the load's
    space) exactly when [STORE_L3_CONDITION >= 16]. Between the two, both
    spaces occur. *)
Theorem store_threshold_extremes :
  (STORE_L3_CONDITION <= 0 <->
   forall i, mod_ i ∈w 8 -> get_address_reg_dst i = L3_LABEL) /\
  (16 <= STORE_L3_CONDITION <->
   forall i, mod_ i ∈w 8 -> get_address_reg_dst i = get_address_reg i).
Proof.
  split; split.
  - intros HT i Hm. pose proof (get_mod_cond_range i Hm).
    apply store_space_above. lia.
  - intros Hall.
    assert (H0 : mod_ (new 0 0 0 0 0) ∈w 8) by (unfold in_width, new; simpl; lia).
    pose proof (proj1 (store_l3_iff (new 0 0 0 0 0)) (Hall _ H0)) as Hm.
    simpl in Hm. lia.
  - intros HT i Hm. pose proof (get_mod_cond_range i Hm).
    apply store_space_below. lia.
  - intros Hall.
    assert (H255 : mod_ (new 0 0 0 255 0) ∈w 8) by (unfold in_width, new; simpl; lia).
    pose proof (Hall _ H255) as E.
    destruct (Z.le_gt_cases (16 * STORE_L3_CONDITION) 255) as [Hle|]; [|lia].
    apply (proj2 (store_l3_iff (new 0 0 0 255 0))) in Hle.
    rewrite Hle in E. destruct (load_space_cases (new 0 0 0 255 0)) as [Hl|Hl];
      rewrite Hl in E; discriminate E.
Qed.
End AddressSpaces.

(** ** Concrete instances (RandomX configuration) *)

(** The modifier byte [0b10110101] (181) of the spec has memory mode [0b01],
    shift [0b01] and condition [0b1011]. *)
Example mod_fields_spec_example :
  let i := new 0 0 0 181 0 in
  get_mod_mem i = 1 /\ get_mod_shift i = 1 /\ get_mod_cond i = 11.
Proof. vm_compute. repeat split. Qed.

Lemma mod_fields_partition_witness :
  181 ∈w 8 /\
  181 = get_mod_mem (new 0 0 0 181 0) + 4 * get_mod_shift (new 0 0 0 181 0)
               + 16 * get_mod_cond (new 0 0 0 181 0).
Proof.
  assert (H : 181 ∈w 8) by (unfold in_width; lia). split; [exact H|].
  exact (proj2 (proj2 (proj2 (mod_fields_partition (new 0 0 0 181 0) H)))).
Defined.

Lemma store_l3_share_witness :
  0 <= STORE_L3_CONDITION <= 16 /\
  length (filter (fun m => get_address_reg_dst (new 0 0 0 m 0) = L3_LABEL) (seqZ 0 256)) = 32%nat.
Proof.
  assert (HT : 0 <= STORE_L3_CONDITION <= 16) by (simpl; lia).
  split; [exact HT|]. rewrite (proj2 (store_l3_share HT)). reflexivity.
Defined.

Lemma to_bytes_of_bytes_witness :
  length [1; 2; 3; 4; 252; 255; 255; 255] = 8%nat /\ Forall (in_width 8) [1; 2; 3; 4; 252; 255; 255; 255] /\
  exists i, of_bytes [1; 2; 3; 4; 252; 255; 255; 255] = Some i /\ Instruction_wf i /\
            to_bytes i = [1; 2; 3; 4; 252; 255; 255; 255].
Proof.
  assert (Hl : length [1; 2; 3; 4; 252; 255; 255; 255] = 8%nat) by reflexivity.
  assert (Hf : Forall (in_width 8) [1; 2; 3; 4; 252; 255; 255; 255])
    by (repeat constructor; unfold in_width; lia).
  split; [exact Hl|]. split; [exact Hf|]. exact (to_bytes_of_bytes _ Hl Hf).
Defined.

