(* ===== verification/Distribution.v ===== *)
(** * The weighted opcode table [INSTR_NAMES]

    Models lines 34-84 of [src/ironlight/src/instruction.rs]: the
    declaration [NAMES_FREQS] of 30 (mnemonic, frequency) pairs and the
    [const fn build_instruction_array] that flattens it into the 256-slot
    table [INSTR_NAMES]. The two [while] loops are [names_loop] (over [i])
    and [fill_loop] (over [j]); each takes a fuel bound and [fill_loop]
    writes [arr[idx]] through [array_store], which stops with
    [IndexOutOfBounds] where Rust's bounds check would fail (at compile time,
    since the function is evaluated as a constant). The reference
    [expand] is the flattening the loops are meant to compute; the main
    theorem [build_array_spec] says what the loops return for every
    declaration with non-negative frequencies. *)

From stdpp Require Import base list strings.
From Stdlib Require Import ZArith Lia.
From S2P Require Import Prelude.

Open Scope Z_scope.

Definition NAMES_FREQS : list (string * Z) := [
  ("IADD_RS", 16);
  ("IADD_M", 7);
  ("ISUB_R", 16);
  ("ISUB_M", 7);
  ("IMUL_R", 16);
  ("IMUL_M", 4);
  ("IMULH_R", 4);
  ("IMULH_M", 1);
  ("ISMULH_R", 4);
  ("ISMULH_M", 1);
  ("IMUL_RCP", 8);
  ("INEG_R", 2);
  ("IXOR_R", 15);
  ("IXOR_M", 5);
  ("IROR_R", 8);
  ("IROL_R", 2);
  ("ISWAP_R", 4);
  ("FSWAP_R", 4);
  ("FADD_R", 16);
  ("FADD_M", 5);
  ("FSUB_R", 16);
  ("FSUB_M", 5);
  ("FSCAL_R", 6);
  ("FMUL_R", 32);
  ("FDIV_M", 4);
  ("FSQRT_R", 6);
  ("CBRANCH", 25);
  ("CFROUND", 1);
  ("ISTORE", 16);
  ("NOP", 0)
].

(** Why constant evaluation of [build_instruction_array] can stop. *)
Inductive ConstEvalError :=
  | IndexOutOfBounds (len index : Z)
  | LoopFuelExhausted.

(** The length of [arr], the array of 256 empty strings. *)
Definition ARRAY_LEN : nat := 256.

(** [arr[idx] = v] with Rust's bounds check. *)
Definition array_store (arr : list string) (idx : Z) (v : string)
    : result ConstEvalError (list string) :=
  if (0 <=? idx) && (idx <? Z.of_nat (length arr)) then Ok (<[Z.to_nat idx := v]> arr)
  else Err (IndexOutOfBounds (Z.of_nat (length arr)) idx).

(** [while j < freq { arr[idx] = name; idx += 1; j += 1; }], returning the
    array and [idx]. *)
Fixpoint fill_loop (fuel : nat) (name : string) (freq j idx : Z) (arr : list string)
    : result ConstEvalError (list string * Z) :=
  match fuel with
  | O => Err LoopFuelExhausted
  | S fuel' =>
      if j <? freq then
        arr' ← array_store arr idx name;
        fill_loop fuel' name freq (j + 1) (idx + 1) arr'
      else Ok (arr, idx)
  end.

(** [while i < NAMES_FREQS.len() { let (name, freq) = NAMES_FREQS[i]; let
    mut j = 0; <fill_loop>; i += 1; }]. The inner loop runs [freq] times,
    so its fuel is [freq + 1]. *)
Fixpoint names_loop (fuel : nat) (names_freqs : list (string * Z)) (i idx : Z)
    (arr : list string) : result ConstEvalError (list string) :=
  match fuel with
  | O => Err LoopFuelExhausted
  | S fuel' =>
      if i <? Z.of_nat (length names_freqs) then
        match names_freqs !! Z.to_nat i with
        | Some (name, freq) =>
            '(arr', idx') ← fill_loop (S (Z.to_nat freq)) name freq 0 idx arr;
            names_loop fuel' names_freqs (i + 1) idx' arr'
        | None => Err (IndexOutOfBounds (Z.of_nat (length names_freqs)) i)
        end
      else Ok arr
  end.

(** [build_instruction_array], for any declaration list in place of the
    constant [NAMES_FREQS]. *)
Definition build_array (names_freqs : list (string * Z)) : result ConstEvalError (list string) :=
  names_loop (S (length names_freqs)) names_freqs 0 0 (replicate ARRAY_LEN EmptyString).

Definition build_instruction_array : result ConstEvalError (list string) :=
  build_array NAMES_FREQS.

(** [const INSTR_NAMES: [&str; 256] = build_instruction_array();] The
    constant exists only if the evaluation succeeds, which
    [build_instruction_array_ok] shows; the [Err] branch is never taken. *)
Definition INSTR_NAMES : list string :=
  match build_instruction_array with
  | Ok arr => arr
  | Err _ => []
  end.

(** ** The reference flattening *)

Definition expand (names_freqs : list (string * Z)) : list string :=
  concat (map (fun '(name, freq) => replicate (Z.to_nat freq) name) names_freqs).

Definition total_freq (names_freqs : list (string * Z)) : Z :=
  foldr (fun '(_, freq) acc => freq + acc) 0 names_freqs.

Definition freqs_nonneg (names_freqs : list (string * Z)) : Prop :=
  Forall (fun '(_, freq) => 0 <= freq) names_freqs.

(** ** The inner loop

    The array is always a filled prefix [pre] followed by empty slots, and
    [idx] is the length of the prefix. *)

Definition blank (n : nat) : list string := replicate n EmptyString.

Definition arr_of (pre : list string) : list string := pre ++ blank (ARRAY_LEN - length pre).

(** A small declaration used in the examples. *)
Definition small_decl : list (string * Z) := [("IADD_RS", 16); ("NOP", 0); ("ISTORE", 3)].

Lemma length_arr_of pre : (length pre <= ARRAY_LEN)%nat -> length (arr_of pre) = ARRAY_LEN.
Proof. unfold arr_of, blank. rewrite length_app, length_replicate. lia. Qed.

(** Writing the slot just after the prefix extends the prefix. *)
Lemma insert_arr_of (pre : list string) (x : string) :
  (length pre < ARRAY_LEN)%nat -> <[length pre := x]> (arr_of pre) = arr_of (pre ++ [x]).
Proof.
  intros Hlt. unfold arr_of, blank. rewrite length_app. simpl.
  replace (ARRAY_LEN - length pre)%nat with (S (ARRAY_LEN - (length pre + 1)))%nat by lia.
  rewrite <- (Nat.add_0_r (length pre)) at 1. rewrite insert_app_r.
  rewrite <- app_assoc. reflexivity.
Qed.

Lemma array_store_next (pre : list string) (x : string) :
  (length pre < ARRAY_LEN)%nat ->
  array_store (arr_of pre) (Z.of_nat (length pre)) x = Ok (arr_of (pre ++ [x])).
Proof.
  intros Hlt. unfold array_store. rewrite length_arr_of by lia.
  replace ((0 <=? Z.of_nat (length pre)) && (Z.of_nat (length pre) <? Z.of_nat ARRAY_LEN))
    with true by (symmetry; apply andb_true_intro; split; [apply Z.leb_le | apply Z.ltb_lt]; lia).
  rewrite Nat2Z.id. f_equal. by apply insert_arr_of.
Qed.

Lemma array_store_full (pre : list string) (x : string) :
  length pre = ARRAY_LEN ->
  array_store (arr_of pre) (Z.of_nat (length pre)) x
  = Err (IndexOutOfBounds (Z.of_nat ARRAY_LEN) (Z.of_nat ARRAY_LEN)).
Proof.
  intros Hlen. unfold array_store. rewrite length_arr_of, Hlen by lia.
  replace ((0 <=? Z.of_nat ARRAY_LEN) && (Z.of_nat ARRAY_LEN <? Z.of_nat ARRAY_LEN))
    with false by (symmetry; apply andb_false_intro2, Z.ltb_ge; lia).
  reflexivity.
Qed.

(** With one more unit of fuel than iterations, [fill_loop] appends
    [freq - j] copies of the name to the prefix, unless that overflows the
    array, in which case it stops at index 256. *)
Lemma fill_loop_spec (k : nat) (name : string) (freq j : Z) (pre : list string) :
  0 <= j <= freq -> (Z.to_nat (freq - j) < k)%nat -> (length pre <= ARRAY_LEN)%nat ->
  fill_loop k name freq j (Z.of_nat (length pre)) (arr_of pre) =
  if Z.of_nat (length pre) + (freq - j) <=? Z.of_nat ARRAY_LEN
  then Ok (arr_of (pre ++ replicate (Z.to_nat (freq - j)) name),
           Z.of_nat (length pre) + (freq - j))
  else Err (IndexOutOfBounds (Z.of_nat ARRAY_LEN) (Z.of_nat ARRAY_LEN)).
Proof.
  revert j pre. induction k as [|k IH]; intros j pre Hj Hk Hpre; [lia|].
  simpl fill_loop. destruct (Z.ltb_spec j freq) as [Hlt|Hge].
  - destruct (decide (length pre < ARRAY_LEN)%nat) as [Hroom|Hfull].
    + rewrite array_store_next by exact Hroom. cbn [mbind result_bind].
      replace (Z.of_nat (length pre) + 1) with (Z.of_nat (length (pre ++ [name])))
        by (rewrite length_app; simpl; lia).
      rewrite IH by (rewrite ?length_app; simpl; lia).
      rewrite length_app. simpl length.
      replace (Z.of_nat (length pre + 1) + (freq - (j + 1)))
        with (Z.of_nat (length pre) + (freq - j)) by lia.
      replace (Z.to_nat (freq - j)) with (S (Z.to_nat (freq - (j + 1)))) by lia.
      rewrite replicate_S, <- app_assoc. reflexivity.
    + rewrite array_store_full by lia. cbn [mbind result_bind].
      replace (Z.of_nat (length pre) + (freq - j) <=? Z.of_nat ARRAY_LEN) with false
        by (symmetry; apply Z.leb_gt; lia).
      reflexivity.
  - replace (freq - j) with 0 by lia. simpl.
    replace (Z.of_nat (length pre) + 0 <=? Z.of_nat ARRAY_LEN) with true
      by (symmetry; apply Z.leb_le; lia).
    rewrite app_nil_r, Z.add_0_r. reflexivity.
Qed.

(** ** The outer loop *)

Lemma total_freq_nonneg nf : freqs_nonneg nf -> 0 <= total_freq nf.
Proof. induction 1 as [|[n f] nf Hf _ IH]; simpl; lia. Qed.

Lemma length_expand nf : freqs_nonneg nf -> length (expand nf) = Z.to_nat (total_freq nf).
Proof.
  induction 1 as [|[n f] nf Hf Hnf IH]; [reflexivity|].
  unfold expand in *. simpl. rewrite length_app, length_replicate, IH.
  pose proof (total_freq_nonneg nf Hnf). lia.
Qed.

Lemma expand_cons name freq nf :
  expand ((name, freq) :: nf) = replicate (Z.to_nat freq) name ++ expand nf.
Proof. reflexivity. Qed.

Lemma total_freq_cons name freq nf :
  total_freq ((name, freq) :: nf) = freq + total_freq nf.
Proof. reflexivity. Qed.

Lemma freqs_nonneg_drop nf k : freqs_nonneg nf -> freqs_nonneg (drop k nf).
Proof. apply Forall_drop. Qed.

(** From entry [i] on, [names_loop] appends the expansion of the remaining
    declarations to the prefix, or stops at index 256 if they overflow. *)
Lemma names_loop_spec (k : nat) (nf : list (string * Z)) (i : Z) (pre : list string) :
  freqs_nonneg nf -> 0 <= i <= Z.of_nat (length nf) ->
  (length nf - Z.to_nat i < k)%nat -> (length pre <= ARRAY_LEN)%nat ->
  names_loop k nf i (Z.of_nat (length pre)) (arr_of pre) =
  if Z.of_nat (length pre) + total_freq (drop (Z.to_nat i) nf) <=? Z.of_nat ARRAY_LEN
  then Ok (arr_of (pre ++ expand (drop (Z.to_nat i) nf)))
  else Err (IndexOutOfBounds (Z.of_nat ARRAY_LEN) (Z.of_nat ARRAY_LEN)).
Proof.
  revert i pre. induction k as [|k IH]; intros i pre Hnf Hi Hk Hpre; [lia|].
  cbn [names_loop]. destruct (Z.ltb_spec i (Z.of_nat (length nf))) as [Hlt|Hge].
  - destruct (lookup_lt_is_Some_2 nf (Z.to_nat i)) as [[name freq] Hx]; [lia|].
    rewrite Hx. pose proof (Forall_lookup_1 _ _ _ _ Hnf Hx) as Hf. simpl in Hf.
    pose proof (total_freq_nonneg _ (freqs_nonneg_drop nf (S (Z.to_nat i)) Hnf)) as Hrest.
    rewrite (drop_S _ _ _ Hx), expand_cons, total_freq_cons.
    rewrite fill_loop_spec by lia. rewrite Z.sub_0_r.
    destruct (Z.leb_spec (Z.of_nat (length pre) + freq) (Z.of_nat ARRAY_LEN)) as [Hfit|Hover].
    + cbn [mbind result_bind].
      replace (Z.of_nat (length pre) + freq)
        with (Z.of_nat (length (pre ++ replicate (Z.to_nat freq) name)))
        by (rewrite length_app, length_replicate; lia).
      rewrite IH by (exact Hnf || (rewrite ?length_app, ?length_replicate; lia)).
      replace (Z.to_nat (i + 1)) with (S (Z.to_nat i)) by lia.
      rewrite length_app, length_replicate, <- app_assoc.
      replace (Z.of_nat (length pre + Z.to_nat freq)) with (Z.of_nat (length pre) + freq) by lia.
      rewrite Z.add_assoc. reflexivity.
    + cbn [mbind result_bind]. rewrite (proj2 (Z.leb_gt _ _)) by lia. reflexivity.
  - replace (Z.to_nat i) with (length nf) by lia. rewrite drop_all.
    cbn [expand total_freq map concat foldr]. rewrite app_nil_r.
    replace (Z.of_nat (length pre) + 0 <=? Z.of_nat ARRAY_LEN) with true
      by (symmetry; apply Z.leb_le; lia).
    reflexivity.
Qed.

Lemma arr_of_nil : arr_of [] = replicate ARRAY_LEN EmptyString.
Proof. reflexivity. Qed.

Lemma expand_app nf1 nf2 : expand (nf1 ++ nf2) = expand nf1 ++ expand nf2.
Proof. unfold expand. by rewrite map_app, concat_app. Qed.

Lemma build_array_eq (nf : list (string * Z)) :
  freqs_nonneg nf ->
  build_array nf =
  if total_freq nf <=? 256
  then Ok (expand nf ++ replicate (ARRAY_LEN - Z.to_nat (total_freq nf)) EmptyString)
  else Err (IndexOutOfBounds 256 256).
Proof.
  intros Hnf. unfold build_array. rewrite <- arr_of_nil.
  change 0 with (Z.of_nat (length (@nil string))) at 2.
  rewrite names_loop_spec by (exact Hnf || simpl; lia). simpl.
  unfold arr_of, blank. by rewrite length_expand.
Qed.

(** C1: [build_instruction_array]'s loops compute the reference
    flattening: for any declaration list with non-negative frequencies,
    the result is the declared names repeated by their frequencies in
    declaration order, padded with empty strings up to 256 slots when the
    frequencies sum to at most 256; when they sum to more, evaluation stops
    with an out-of-bounds write at index 256. *)
Theorem build_array_spec (nf : list (string * Z)) :
  freqs_nonneg nf ->
  build_array nf =
  if total_freq nf <=? 256
  then Ok (expand nf ++ replicate (ARRAY_LEN - Z.to_nat (total_freq nf)) EmptyString)
  else Err (IndexOutOfBounds 256 256).
Proof. exact (build_array_eq nf). Qed.

(** The weights of [NAMES_FREQS] are bytes that sum to 256. *)
Lemma NAMES_FREQS_total : total_freq NAMES_FREQS = 256.
Proof. reflexivity. Qed.

Lemma NAMES_FREQS_nonneg : freqs_nonneg NAMES_FREQS.
Proof. repeat constructor; lia. Qed.

Lemma build_NAMES_FREQS : build_instruction_array = Ok (expand NAMES_FREQS).
Proof.
  unfold build_instruction_array.
  rewrite build_array_eq, NAMES_FREQS_total by exact NAMES_FREQS_nonneg.
  change (ARRAY_LEN - Z.to_nat 256)%nat with 0%nat.
  rewrite (proj2 (Z.leb_le 256 256)) by lia. cbn [replicate]. by rewrite app_nil_r.
Qed.

Lemma INSTR_NAMES_expand : INSTR_NAMES = expand NAMES_FREQS.
Proof. unfold INSTR_NAMES. by rewrite build_NAMES_FREQS. Qed.

Lemma length_INSTR_NAMES : length INSTR_NAMES = ARRAY_LEN.
Proof.
  rewrite INSTR_NAMES_expand, length_expand, NAMES_FREQS_total by exact NAMES_FREQS_nonneg.
  reflexivity.
Qed.

(** C2: the constant evaluation of [build_instruction_array] succeeds (so
    the crate compiles) and yields exactly the 256-slot flattening of
    [NAMES_FREQS], with no empty slot. *)
Theorem build_instruction_array_ok :
  build_instruction_array = Ok INSTR_NAMES /\ length INSTR_NAMES = ARRAY_LEN /\
  INSTR_NAMES = expand NAMES_FREQS.
Proof.
  split; [rewrite INSTR_NAMES_expand; exact build_NAMES_FREQS|].
  split; [exact length_INSTR_NAMES | exact INSTR_NAMES_expand].
Qed.

(** ** Lookups in the table *)

Lemma expand_split nf k name freq :
  nf !! k = Some (name, freq) ->
  expand nf = expand (take k nf) ++ replicate (Z.to_nat freq) name ++ expand (drop (S k) nf).
Proof.
  intros Hk. rewrite <- (take_drop_middle nf k _ Hk) at 1.
  by rewrite expand_app, expand_cons.
Qed.

Lemma total_freq_split nf k name freq :
  nf !! k = Some (name, freq) ->
  total_freq nf = total_freq (take k nf) + freq + total_freq (drop (S k) nf).
Proof.
  intros Hk. rewrite <- (take_drop_middle nf k _ Hk) at 1.
  induction (take k nf) as [|[n f] l IH]; simpl; [lia|]. rewrite IH. lia.
Qed.

Lemma expand_take_S nf k name freq :
  nf !! k = Some (name, freq) ->
  expand (take (S k) nf) = expand (take k nf) ++ replicate (Z.to_nat freq) name.
Proof.
  intros Hk. rewrite (take_S_r _ _ _ Hk), expand_app, expand_cons. by rewrite app_nil_r.
Qed.

Lemma freqs_nonneg_take nf k : freqs_nonneg nf -> freqs_nonneg (take k nf).
Proof. apply Forall_take. Qed.

(** Declaration [k] owns the slots from the sum of the frequencies before
    it, for as many slots as its frequency. *)
Lemma expand_lookup_block nf k name freq (o : Z) :
  freqs_nonneg nf -> nf !! k = Some (name, freq) ->
  total_freq (take k nf) <= o < total_freq (take k nf) + freq ->
  expand nf !! Z.to_nat o = Some name.
Proof.
  intros Hnf Hk Ho. rewrite (expand_split _ _ _ _ Hk).
  pose proof (length_expand _ (freqs_nonneg_take nf k Hnf)) as Hlen.
  pose proof (total_freq_nonneg _ (freqs_nonneg_take nf k Hnf)).
  rewrite lookup_app_r by lia. rewrite lookup_app_l by (rewrite length_replicate; lia).
  apply lookup_replicate_2. lia.
Qed.

(** C3: the table read in opcode order is the declaration read in order:
    the [k]-th declared mnemonic occupies the opcodes from the sum of the
    frequencies declared before it, for as many opcodes as its frequency. *)
Theorem INSTR_NAMES_block (k : nat) (name : string) (freq o : Z) :
  NAMES_FREQS !! k = Some (name, freq) ->
  total_freq (take k NAMES_FREQS) <= o < total_freq (take k NAMES_FREQS) + freq ->
  INSTR_NAMES !! Z.to_nat o = Some name.
Proof.
  intros Hk Ho. rewrite INSTR_NAMES_expand.
  exact (expand_lookup_block _ _ _ _ _ NAMES_FREQS_nonneg Hk Ho).
Qed.

Lemma expand_elem nf s : s ∈ expand nf <-> exists freq, (s, freq) ∈ nf /\ 0 < freq.
Proof.
  induction nf as [|[n f] nf IH].
  - split; [intros H; inversion H | intros (? & H & _); inversion H].
  - rewrite expand_cons, elem_of_app, elem_of_replicate, IH. setoid_rewrite elem_of_cons.
    split.
    + intros [[-> Hf] | (g & Hg & Hg0)]; [exists f; split; [left; reflexivity | lia]|].
      exists g. auto.
    + intros (g & [Heq | Hg] & Hg0); [injection Heq as -> ->; left; split; [reflexivity | lia] | right; eauto].
Qed.

Lemma expand_not_named nf name :
  name ∉ map fst nf -> filter (fun s => s = name) (expand nf) = [].
Proof.
  intros Hn. apply filter_none, Forall_forall. intros s Hs ->.
  apply expand_elem in Hs as (f & Hf & _).
  apply Hn, list_elem_of_fmap. exists (name, f). auto.
Qed.

(** Each declared name occupies as many slots of the flattening as its
    frequency, when the names are distinct. *)
Lemma count_in_expand nf name freq :
  NoDup (map fst nf) -> (name, freq) ∈ nf ->
  length (filter (fun s => s = name) (expand nf)) = Z.to_nat freq.
Proof.
  induction nf as [|[n f] nf IH]; intros Hnd Hin; [inversion Hin|].
  simpl in Hnd. apply NoDup_cons in Hnd as [Hn Hnd].
  rewrite expand_cons, filter_app, length_app.
  apply elem_of_cons in Hin as [Heq | Hin].
  - injection Heq as -> ->. rewrite filter_all, expand_not_named by
      (exact Hn || (apply Forall_replicate; reflexivity)).
    rewrite length_replicate. simpl. lia.
  - assert (n <> name) as Hne.
    { intros ->. apply Hn, list_elem_of_fmap. exists (name, freq). auto. }
    rewrite filter_none, IH by (exact Hnd || exact Hin || (apply Forall_replicate; congruence)).
    reflexivity.
Qed.

Lemma NAMES_FREQS_names_distinct : NoDup (map fst NAMES_FREQS).
Proof. apply (bool_decide_unpack _). vm_compute. reflexivity. Qed.

Lemma NAMES_FREQS_names_nonempty : Forall (fun p => p.1 <> EmptyString) NAMES_FREQS.
Proof. repeat constructor; discriminate. Qed.

Lemma INSTR_NAMES_lookup_declared (o : Z) :
  0 <= o < 256 ->
  exists name freq, INSTR_NAMES !! Z.to_nat o = Some name /\
    (name, freq) ∈ NAMES_FREQS /\ 0 < freq.
Proof.
  intros Ho.
  destruct (lookup_lt_is_Some_2 INSTR_NAMES (Z.to_nat o)) as [name Hname];
    [rewrite length_INSTR_NAMES; unfold ARRAY_LEN; lia|].
  pose proof (list_elem_of_lookup_2 _ _ _ Hname) as Hel.
  rewrite INSTR_NAMES_expand, expand_elem in Hel. destruct Hel as (freq & Hin & Hf).
  exists name, freq. auto.
Qed.

(** C5: every opcode byte selects a declared, non-empty mnemonic of
    positive frequency: the table has no empty slot. *)
Theorem INSTR_NAMES_total (o : Z) :
  0 <= o < 256 ->
  exists name freq, INSTR_NAMES !! Z.to_nat o = Some name /\
    (name, freq) ∈ NAMES_FREQS /\ 0 < freq /\ name <> EmptyString.
Proof.
  intros Ho. destruct (INSTR_NAMES_lookup_declared o Ho) as (name & freq & Hname & Hin & Hf).
  exists name, freq. repeat split; try assumption.
  exact (proj1 (Forall_forall _ _) NAMES_FREQS_names_nonempty _ Hin).
Qed.

(** C4: the weighted distribution: each declared mnemonic is the name of
    exactly as many of the 256 opcodes as its declared frequency. *)
Theorem INSTR_NAMES_count (name : string) (freq : Z) :
  (name, freq) ∈ NAMES_FREQS ->
  length (filter (fun s => s = name) INSTR_NAMES) = Z.to_nat freq.
Proof.
  intros Hin. rewrite INSTR_NAMES_expand.
  exact (count_in_expand _ _ _ NAMES_FREQS_names_distinct Hin).
Qed.

(** The zero-weight placeholder [NOP] is the name of no opcode. *)
Lemma NOP_not_in_INSTR_NAMES : "NOP" ∉ INSTR_NAMES.
Proof.
  rewrite INSTR_NAMES_expand, expand_elem. intros (f & Hin & Hf).
  pose proof (count_in_expand _ _ _ NAMES_FREQS_names_distinct Hin) as Hc.
  assert (length (filter (fun s => s = "NOP") (expand NAMES_FREQS)) = 0%nat) as H0
    by (vm_compute; reflexivity).
  lia.
Qed.

(** ** Failure modes of the construction *)

(** C15: the loops always finish within their fuel: evaluation never stops
    for lack of fuel, only (when the frequencies overflow) at the bounds
    check. *)
Theorem build_array_terminates (nf : list (string * Z)) :
  freqs_nonneg nf -> build_array nf <> Err LoopFuelExhausted.
Proof.
  intros Hnf. rewrite build_array_eq by exact Hnf.
  destruct (total_freq nf <=? 256); discriminate.
Qed.

(** C16: a declaration whose frequencies sum to less than 256 is accepted:
    the evaluation succeeds and leaves the last slot of the table empty
    (the empty string), where the spec asks for a construction-time failure. *)
Theorem build_array_underweight_accepted (nf : list (string * Z)) :
  freqs_nonneg nf -> total_freq nf < 256 ->
  exists arr, build_array nf = Ok arr /\ length arr = ARRAY_LEN /\ arr !! 255%nat = Some EmptyString.
Proof.
  intros Hnf Hlt. rewrite build_array_eq by exact Hnf.
  rewrite (proj2 (Z.leb_le _ _)) by lia. eexists; split; [reflexivity|].
  pose proof (length_expand _ Hnf). pose proof (total_freq_nonneg _ Hnf).
  unfold ARRAY_LEN in *. rewrite length_app, length_replicate. split; [lia|].
  rewrite lookup_app_r by lia. apply lookup_replicate_2. lia.
Qed.

(** ** Concrete instances *)


Lemma small_decl_nonneg : freqs_nonneg small_decl.
Proof. repeat constructor; lia. Qed.

Lemma build_array_spec_witness :
  freqs_nonneg small_decl /\
  build_array small_decl =
    Ok (replicate 16 "IADD_RS" ++ replicate 3 "ISTORE" ++ replicate 237 EmptyString).
Proof.
  split; [exact small_decl_nonneg|].
  rewrite (build_array_spec small_decl small_decl_nonneg). reflexivity.
Defined.

Lemma INSTR_NAMES_block_witness :
  NAMES_FREQS !! 2%nat = Some ("ISUB_R", 16) /\
  total_freq (take 2 NAMES_FREQS) <= 23 < total_freq (take 2 NAMES_FREQS) + 16 /\
  INSTR_NAMES !! Z.to_nat 23 = Some "ISUB_R".
Proof.
  assert (Hk : NAMES_FREQS !! 2%nat = Some ("ISUB_R", 16)) by reflexivity.
  assert (Ho : total_freq (take 2 NAMES_FREQS) <= 23 < total_freq (take 2 NAMES_FREQS) + 16)
    by (change (total_freq (take 2 NAMES_FREQS)) with 23; lia).
  split; [exact Hk|]. split; [exact Ho|]. exact (INSTR_NAMES_block 2 _ _ 23 Hk Ho).
Defined.

Lemma INSTR_NAMES_total_witness :
  0 <= 255 < 256 /\
  exists name freq, INSTR_NAMES !! Z.to_nat 255 = Some name /\
    (name, freq) ∈ NAMES_FREQS /\ 0 < freq /\ name <> EmptyString.
Proof.
  assert (H : 0 <= 255 < 256) by lia. split; [exact H | exact (INSTR_NAMES_total 255 H)].
Defined.

Lemma INSTR_NAMES_count_witness :
  ("FMUL_R", 32) ∈ NAMES_FREQS /\
  length (filter (fun s => s = "FMUL_R") INSTR_NAMES) = 32%nat.
Proof.
  assert (H : ("FMUL_R", 32) ∈ NAMES_FREQS)
    by (apply (bool_decide_unpack _); vm_compute; reflexivity).
  split; [exact H | exact (INSTR_NAMES_count _ _ H)].
Defined.

Lemma build_array_terminates_witness :
  freqs_nonneg NAMES_FREQS /\ build_array NAMES_FREQS <> Err LoopFuelExhausted.
Proof.
  split; [exact NAMES_FREQS_nonneg | exact (build_array_terminates _ NAMES_FREQS_nonneg)].
Defined.

Lemma build_array_underweight_accepted_witness :
  freqs_nonneg [("IADD_RS", 16)] /\ total_freq [("IADD_RS", 16)] < 256 /\
  exists arr, build_array [("IADD_RS", 16)] = Ok arr /\ length arr = ARRAY_LEN /\
              arr !! 255%nat = Some EmptyString.
Proof.
  assert (H1 : freqs_nonneg [("IADD_RS", 16)]) by (repeat constructor; lia).
  assert (H2 : total_freq [("IADD_RS", 16)] < 256) by (vm_compute; reflexivity).
  split; [exact H1|]. split; [exact H2|]. exact (build_array_underweight_accepted _ H1 H2).
Defined.
