(* ===== verification/BuildSM.v ===== *)
(** * [build_instruction_array] as a transition system

    The same lines 67-82 of [src/ironlight/src/instruction.rs] as
    [Distribution.v], read as a small-step machine: a state is the program
    point (the outer loop's test, the inner loop's test, returned,
    panicked) with the mutable locals [arr], [idx], [i], [j]. [build_step]
    has one rule per transition of the code: entering an outer iteration
    ([let (name, freq) = NAMES_FREQS[i]; let mut j = 0]), leaving the outer
    loop ([arr] is returned), one inner iteration ([arr[idx] = name; idx +=
    1; j += 1]), the failing bounds check of that write, and leaving the
    inner loop ([i += 1]).

    [build_inv] is the loop invariant; it holds in every reachable state
    ([build_inv_reachable], by induction on the reachability derivation).
    Every execution terminates and one reaches a final state
    ([build_terminates], by a decreasing measure), on the source table it
    returns [INSTR_NAMES] ([build_NAMES_FREQS_returns]), and the counters stay within their Rust types ([build_counters_bounded]).
    A returning run has an exact length ([build_step_count], stdpp's
    [nsteps]), and the panic happens exactly for overweight tables, in a
    state that is known completely ([build_panics_iff]). *)

From stdpp Require Import base list strings relations.
From Stdlib Require Import ZArith Lia.
From S2P Require Import Prelude Distribution.

Open Scope Z_scope.
Open Scope ironlight_scope.

Inductive Pc := AtOuter | AtInner | Returned | Panicked.

#[export] Instance Pc_eq_dec : EqDecision Pc.
Proof. solve_decision. Defined.

Record BuildState := mkBuildState {
  pc : Pc;
  arr : list string;
  idx : Z;
  i : Z;
  j : Z;
}.

Section Machine.
Variable names_freqs : list (string * Z).

Inductive build_step : BuildState -> BuildState -> Prop :=
  | step_outer_enter a x k l :
      k < Z.of_nat (length names_freqs) ->
      build_step (mkBuildState AtOuter a x k l) (mkBuildState AtInner a x k 0)
  | step_outer_exit a x k l :
      Z.of_nat (length names_freqs) <= k ->
      build_step (mkBuildState AtOuter a x k l) (mkBuildState Returned a x k l)
  | step_inner_write a x k l name freq :
      names_freqs !! Z.to_nat k = Some (name, freq) -> l < freq ->
      0 <= x < Z.of_nat (length a) ->
      build_step (mkBuildState AtInner a x k l)
                 (mkBuildState AtInner (<[Z.to_nat x := name]> a) (x + 1) k (l + 1))
  | step_inner_panic a x k l name freq :
      names_freqs !! Z.to_nat k = Some (name, freq) -> l < freq ->
      ~ (0 <= x < Z.of_nat (length a)) ->
      build_step (mkBuildState AtInner a x k l) (mkBuildState Panicked a x k l)
  | step_inner_exit a x k l name freq :
      names_freqs !! Z.to_nat k = Some (name, freq) -> freq <= l ->
      build_step (mkBuildState AtInner a x k l) (mkBuildState AtOuter a x (k + 1) l).

(** [let mut arr = [""; 256]; let mut idx = 0; let mut i = 0;] *)
Definition build_init : BuildState :=
  mkBuildState AtOuter (replicate ARRAY_LEN EmptyString) 0 0 0.

(** The filled prefix at an inner-loop state: the entries before [i], then
    [j] copies of entry [i]. *)
Definition inner_prefix (k l : Z) (name : string) : list string :=
  expand (take (Z.to_nat k) names_freqs) ++ replicate (Z.to_nat l) name.

(** The loop invariant. *)
Definition build_inv (s : BuildState) : Prop :=
  match pc s with
  | AtOuter =>
      0 <= i s <= Z.of_nat (length names_freqs) /\
      (length (expand (take (Z.to_nat (i s)) names_freqs)) <= ARRAY_LEN)%nat /\
      arr s = arr_of (expand (take (Z.to_nat (i s)) names_freqs)) /\
      idx s = Z.of_nat (length (expand (take (Z.to_nat (i s)) names_freqs)))
  | AtInner =>
      exists name freq, names_freqs !! Z.to_nat (i s) = Some (name, freq) /\
      0 <= i s /\ 0 <= j s <= freq /\
      (length (inner_prefix (i s) (j s) name) <= ARRAY_LEN)%nat /\
      arr s = arr_of (inner_prefix (i s) (j s) name) /\
      idx s = Z.of_nat (length (inner_prefix (i s) (j s) name))
  | Returned => arr s = arr_of (expand names_freqs) /\ total_freq names_freqs <= 256
  | Panicked =>
      idx s = 256 /\ arr s = take 256 (expand names_freqs) /\
      256 < total_freq names_freqs
  end.

(** The work left: one unit per remaining write, two per remaining outer
    iteration (its entry and its exit), one for leaving the outer loop. *)
Definition work_from (k : Z) : nat :=
  foldr (fun '(_, f) acc => Z.to_nat f + 2 + acc)%nat 1%nat (drop (Z.to_nat k) names_freqs).

Definition measure (s : BuildState) : nat :=
  match pc s with
  | AtOuter => work_from (i s)
  | AtInner =>
      match names_freqs !! Z.to_nat (i s) with
      | Some (_, f) => Z.to_nat (f - j s) + 1 + work_from (i s + 1)
      | None => 0
      end
  | Returned | Panicked => 0
  end.
End Machine.

(** The weights of the source's table have type [u8]. *)
Definition freqs_u8 (names_freqs : list (string * Z)) : Prop :=
  Forall (fun '(_, freq) => freq ∈w 8) names_freqs.

(** A one-entry table and the state its run returns in. *)
Definition one_istore : list (string * Z) := [("ISTORE", 1)].
(** A one-entry table one write too heavy. *)
Definition overweight_istore : list (string * Z) := [("ISTORE", 257)].
Definition one_istore_final : BuildState :=
  mkBuildState Returned ("ISTORE" :: replicate 255 EmptyString) 1 1 1.

Arguments build_init : simpl never.

(** ** The invariant *)

Section Invariant.
Variable nf : list (string * Z).
Hypothesis Hnf : freqs_nonneg nf.

Lemma inner_prefix_S k l name :
  0 <= l -> inner_prefix nf k (l + 1) name = inner_prefix nf k l name ++ [name].
Proof.
  intros Hl. unfold inner_prefix. rewrite <- app_assoc.
  replace (Z.to_nat (l + 1)) with (S (Z.to_nat l)) by lia. by rewrite replicate_S_end.
Qed.

Lemma length_expand_take k :
  length (expand (take k nf)) = Z.to_nat (total_freq (take k nf)).
Proof. apply length_expand, freqs_nonneg_take, Hnf. Qed.

(** The filled prefix of an inner-loop state is a prefix of the whole
    expansion. *)
Lemma inner_prefix_prefix k l name freq :
  nf !! Z.to_nat k = Some (name, freq) -> 0 <= l <= freq ->
  exists rest, expand nf = inner_prefix nf k l name ++ rest.
Proof.
  intros Hk Hl. rewrite (expand_split nf _ _ _ Hk).
  replace (Z.to_nat freq) with (Z.to_nat l + Z.to_nat (freq - l))%nat by lia.
  rewrite replicate_add. unfold inner_prefix.
  eexists. by rewrite <- !app_assoc.
Qed.

Lemma build_inv_init : build_inv nf (build_init).
Proof.
  unfold build_inv, build_init; simpl. rewrite take_0.
  repeat split; [lia | lia | simpl; unfold ARRAY_LEN; lia].
Qed.

Lemma build_inv_step s s' : build_inv nf s -> build_step nf s s' -> build_inv nf s'.
Proof.
  intros Hinv Hstep. destruct Hstep as
    [a x k l Hk | a x k l Hk | a x k l name freq Hl Hlt Hx
    | a x k l name freq Hl Hlt Hx | a x k l name freq Hl Hge];
    unfold build_inv in *; simpl in *.
  - (* outer_enter *)
    destruct Hinv as (Hi & Hlen & -> & ->).
    destruct (lookup_lt_is_Some_2 nf (Z.to_nat k)) as [[name freq] Hnk]; [lia|].
    pose proof (Forall_lookup_1 _ _ _ _ Hnf Hnk) as Hf. simpl in Hf.
    exists name, freq. unfold inner_prefix. simpl. rewrite app_nil_r.
    repeat split; auto; lia.
  - (* outer_exit *)
    destruct Hinv as (Hi & Hlen & -> & _).
    replace (Z.to_nat k) with (length nf) in * by lia. rewrite take_ge in * by lia.
    split; [reflexivity|]. rewrite length_expand in Hlen by exact Hnf.
    pose proof (total_freq_nonneg nf Hnf). unfold ARRAY_LEN in Hlen. lia.
  - (* inner_write *)
    destruct Hinv as (n & f & Hnk & Hi & Hj & Hlen & -> & ->).
    rewrite Hl in Hnk. injection Hnk as <- <-.
    rewrite length_arr_of in Hx by exact Hlen.
    exists name, freq. rewrite Nat2Z.id, insert_arr_of by lia.
    rewrite inner_prefix_S by lia. rewrite !length_app. simpl.
    repeat split; try reflexivity; try exact Hl; lia.
  - (* inner_panic *)
    destruct Hinv as (n & f & Hnk & Hi & Hj & Hlen & -> & ->).
    rewrite Hl in Hnk. injection Hnk as <- <-.
    rewrite length_arr_of in Hx by exact Hlen.
    assert (H256 : length (inner_prefix nf k l name) = 256%nat) by (unfold ARRAY_LEN in *; lia).
    destruct (inner_prefix_prefix k l name freq Hl ltac:(lia)) as [rest Hrest].
    split; [lia|]. split.
    { rewrite Hrest, <- H256, take_app_length. unfold arr_of, blank.
      rewrite H256. simpl. by rewrite app_nil_r. }
    rewrite (total_freq_split nf _ _ _ Hl).
    pose proof (total_freq_nonneg _ (freqs_nonneg_drop nf (S (Z.to_nat k)) Hnf)).
    pose proof (total_freq_nonneg _ (freqs_nonneg_take nf (Z.to_nat k) Hnf)).
    unfold inner_prefix in *. rewrite length_app, length_replicate, length_expand_take in *.
    unfold ARRAY_LEN in *. lia.
  - (* inner_exit *)
    destruct Hinv as (n & f & Hnk & Hi & Hj & Hlen & -> & ->).
    rewrite Hl in Hnk. injection Hnk as <- <-.
    assert (Hk : (Z.to_nat k < length nf)%nat) by (eapply lookup_lt_Some; eauto).
    replace (Z.to_nat (k + 1)) with (S (Z.to_nat k)) by lia.
    unfold inner_prefix in *. replace l with freq in * by lia.
    rewrite (expand_take_S nf _ _ _ Hl). repeat split; auto; lia.
Qed.

Lemma build_inv_rtc s s' : rtc (build_step nf) s s' -> build_inv nf s -> build_inv nf s'.
Proof. induction 1; eauto using build_inv_step. Qed.
End Invariant.

(** ** Progress, termination and determinism *)

Section Termination.
Variable nfq : list (string * Z).
Hypothesis Hnf : freqs_nonneg nfq.

Lemma final_no_step s s' :
  (pc s = Returned \/ pc s = Panicked) -> ~ build_step nfq s s'.
Proof. intros Hpc Hs. destruct Hs; simpl in Hpc; destruct Hpc; discriminate. Qed.

(** A state of the invariant at a loop test can always take a step. *)
Lemma build_progress s :
  build_inv nfq s -> pc s = AtOuter \/ pc s = AtInner -> exists s', build_step nfq s s'.
Proof.
  destruct s as [p a x k l]. unfold build_inv; simpl. intros Hinv [-> | ->].
  - destruct (Z.lt_ge_cases k (Z.of_nat (length nfq))).
    + eexists. by apply step_outer_enter.
    + eexists. by apply step_outer_exit.
  - destruct Hinv as (name & freq & Hk & _).
    destruct (Z.lt_ge_cases l freq).
    + destruct (decide (0 <= x < Z.of_nat (length a))).
      * eexists. by eapply step_inner_write.
      * eexists. by eapply step_inner_panic.
    + eexists. by eapply step_inner_exit.
Qed.

Lemma work_from_cons k name freq :
  0 <= k -> nfq !! Z.to_nat k = Some (name, freq) ->
  work_from nfq k = (Z.to_nat freq + 2 + work_from nfq (k + 1))%nat.
Proof.
  intros Hk Hl. unfold work_from. rewrite (drop_S _ _ _ Hl).
  by replace (Z.to_nat (k + 1)) with (S (Z.to_nat k)) by lia.
Qed.

(** Every step that does not panic consumes exactly one unit of work. *)
Lemma measure_step_exact s s' :
  build_inv nfq s -> build_step nfq s s' -> pc s' <> Panicked ->
  measure nfq s = S (measure nfq s').
Proof.
  intros Hinv Hstep Hp. destruct Hstep as
    [a x k l Hk | a x k l Hk | a x k l name freq Hl Hlt Hx
    | a x k l name freq Hl Hlt Hx | a x k l name freq Hl Hge];
    unfold build_inv, measure in *; simpl in *.
  - destruct Hinv as (Hi & _).
    destruct (lookup_lt_is_Some_2 nfq (Z.to_nat k)) as [[name freq] Hnk]; [lia|].
    rewrite Hnk, (work_from_cons k name freq) by (lia || exact Hnk). lia.
  - unfold work_from. rewrite drop_ge by lia. reflexivity.
  - rewrite Hl. lia.
  - by destruct Hp.
  - destruct Hinv as (n & f & Hnk & _ & Hj & _).
    rewrite Hl in *. injection Hnk as <- <-. lia.
Qed.

Lemma measure_decreases s s' :
  build_inv nfq s -> build_step nfq s s' -> (measure nfq s' < measure nfq s)%nat.
Proof.
  intros Hinv Hstep. destruct (decide (pc s' = Panicked)) as [Hp|Hp].
  - destruct Hstep; simpl in Hp; try discriminate. unfold measure; simpl.
    rewrite H. lia.
  - rewrite (measure_step_exact s s' Hinv Hstep Hp). lia.
Qed.

Lemma build_sn_measure (n : nat) s :
  (measure nfq s < n)%nat -> build_inv nfq s -> sn (build_step nfq) s.
Proof.
  revert s. induction n as [|n IH]; intros s Hm Hinv; [lia|].
  constructor. intros s' Hstep.
  apply IH; [pose proof (measure_decreases s s' Hinv Hstep); lia|].
  exact (build_inv_step nfq Hnf s s' Hinv Hstep).
Qed.

Lemma build_wn_measure (n : nat) s :
  (measure nfq s < n)%nat -> build_inv nfq s -> wn (build_step nfq) s.
Proof.
  revert s. induction n as [|n IH]; intros s Hm Hinv; [lia|].
  destruct (pc s) eqn:Hpc.
  1, 2: destruct (build_progress s Hinv ltac:(auto)) as [s' Hstep];
    pose proof (measure_decreases s s' Hinv Hstep);
    destruct (IH s' ltac:(lia) (build_inv_step nfq Hnf s s' Hinv Hstep)) as (t & Hrtc & Hnft);
    exists t; split; [eapply rtc_l; eauto | exact Hnft].
  all: exists s; split; [apply rtc_refl | intros [s' Hs']; eapply final_no_step; eauto].
Qed.

(** The final states of the machine are the returned and the panicked ones. *)
Lemma build_nf_final s :
  build_inv nfq s -> nf (build_step nfq) s -> pc s = Returned \/ pc s = Panicked.
Proof.
  intros Hinv Hnfs. destruct (pc s) eqn:Hpc; auto;
    exfalso; apply Hnfs; apply (build_progress s Hinv); auto.
Qed.
(** A run that returns makes exactly as many steps as the work measured
    at its start. *)
Lemma nsteps_returned n s t :
  build_inv nfq s -> nsteps (build_step nfq) n s t -> pc t = Returned -> n = measure nfq s.
Proof.
  intros Hinv Hn. revert Hinv. induction Hn as [s|n s y t Hst Hn IH]; intros Hinv Ht.
  - unfold measure. by rewrite Ht.
  - destruct (decide (pc y = Panicked)) as [Hp|Hp].
    + exfalso. destruct Hn as [|? ? z ? Hyz]; [congruence|].
      exact (final_no_step _ z (or_intror Hp) Hyz).
    + rewrite (measure_step_exact s y Hinv Hst Hp).
      f_equal. exact (IH (build_inv_step nfq Hnf s y Hinv Hst) Ht).
Qed.
End Termination.

(** ** Agreement with the fuel-based model *)

Lemma build_final_agrees nfq s :
  freqs_nonneg nfq -> build_inv nfq s ->
  (pc s = Returned -> build_array nfq = Ok (arr s)) /\
  (pc s = Panicked -> build_array nfq = Err (IndexOutOfBounds 256 256)).
Proof.
  intros Hnf Hinv. rewrite build_array_eq by exact Hnf.
  unfold build_inv in Hinv. split; intros Hpc; rewrite Hpc in Hinv.
  - destruct Hinv as [-> Htot]. apply Z.leb_le in Htot as ->.
    unfold arr_of, blank. by rewrite length_expand by exact Hnf.
  - destruct Hinv as (_ & _ & Htot). apply Z.leb_gt in Htot as ->. reflexivity.
Qed.

Lemma build_reachable_inv nfq s :
  freqs_nonneg nfq -> rtc (build_step nfq) build_init s -> build_inv nfq s.
Proof. intros Hnf Hr. exact (build_inv_rtc nfq Hnf _ _ Hr (build_inv_init nfq)). Qed.

Lemma build_init_wn nfq : freqs_nonneg nfq -> wn (build_step nfq) build_init.
Proof.
  intros Hnf. apply (build_wn_measure nfq Hnf (S (measure nfq build_init))); [lia|].
  apply build_inv_init.
Qed.

(** C23: the loop invariant of [build_instruction_array]. In every state
    the code reaches from its first line, for a table of non-negative
    weights: at the outer loop's test [arr] holds the expansion of the
    entries before [i] followed by empty strings and [idx] is its length;
    at the inner loop's test it holds that expansion followed by [j] copies
    of entry [i]; a returned array is the whole expansion padded to 256; and
    a panic happens only when the weights sum to more than 256. *)
Theorem build_inv_reachable nfq s :
  freqs_nonneg nfq -> rtc (build_step nfq) build_init s -> build_inv nfq s.
Proof. exact (build_reachable_inv nfq s). Qed.

(** C24: every execution of the loops terminates, and some execution ends
    in a final state: from the initial state there is no infinite sequence
    of steps, and a state with no step (a return or a panic) is reached. *)
Theorem build_terminates nfq :
  freqs_nonneg nfq ->
  sn (build_step nfq) build_init /\
  exists s, rtc (build_step nfq) build_init s /\ nf (build_step nfq) s /\
            (pc s = Returned \/ pc s = Panicked).
Proof.
  intros Hnf. split.
  - apply (build_sn_measure nfq Hnf (S (measure nfq build_init))); [lia|].
    apply build_inv_init.
  - destruct (build_init_wn nfq Hnf) as (s & Hr & Hs). exists s. split_and!; [done..|].
    exact (build_nf_final nfq s (build_reachable_inv nfq s Hnf Hr) Hs).
Qed.

(** C25: on the table of the source, the machine runs to a return whose
    array is [INSTR_NAMES], and it cannot stop anywhere else. *)
Theorem build_NAMES_FREQS_returns :
  exists s, rtc (build_step NAMES_FREQS) build_init s /\
  nf (build_step NAMES_FREQS) s /\ pc s = Returned /\ arr s = INSTR_NAMES.
Proof.
  destruct (build_init_wn NAMES_FREQS NAMES_FREQS_nonneg) as (s & Hr & Hs).
  pose proof (build_reachable_inv _ s NAMES_FREQS_nonneg Hr) as Hinv.
  destruct (build_final_agrees _ s NAMES_FREQS_nonneg Hinv) as [Hret Hpan].
  assert (Hp : pc s = Returned).
  { destruct (build_nf_final _ s Hinv Hs) as [Hp | Hp]; [done|].
    unfold build_inv in Hinv. rewrite Hp, NAMES_FREQS_total in Hinv. lia. }
  exists s. split_and!; [done..|].
  pose proof build_NAMES_FREQS as Hb. unfold build_instruction_array in Hb.
  rewrite (Hret Hp) in Hb. injection Hb as ->. symmetry. apply INSTR_NAMES_expand.
Qed.

(** ** Witnesses *)

(** One step of the machine on a concrete state: the rule whose side
    conditions evaluate to true. *)
Ltac build_side := solve [reflexivity | vm_compute; lia | vm_compute; intuition discriminate].
Ltac build_one :=
  first [ eapply step_outer_enter; build_side
        | eapply step_outer_exit; build_side
        | eapply step_inner_write; build_side
        | eapply step_inner_panic; build_side
        | eapply step_inner_exit; build_side ].
Ltac build_run := repeat (eapply rtc_l; [build_one|]); apply rtc_refl.
Ltac build_run_n := repeat (eapply nsteps_l; [build_one|]); apply nsteps_O.

Lemma one_istore_nonneg : freqs_nonneg one_istore.
Proof. unfold freqs_nonneg, one_istore. repeat constructor; simpl; lia. Qed.

Lemma one_istore_runs : rtc (build_step one_istore) build_init one_istore_final.
Proof. unfold build_init, one_istore_final. build_run. Qed.

Lemma build_inv_reachable_witness :
  freqs_nonneg one_istore /\ rtc (build_step one_istore) build_init one_istore_final /\
  build_inv one_istore one_istore_final.
Proof.
  split; [exact one_istore_nonneg|]. split; [exact one_istore_runs|].
  exact (build_inv_reachable _ _ one_istore_nonneg one_istore_runs).
Defined.

Lemma build_terminates_witness :
  freqs_nonneg NAMES_FREQS /\
  sn (build_step NAMES_FREQS) build_init /\
  exists s, rtc (build_step NAMES_FREQS) build_init s /\ nf (build_step NAMES_FREQS) s /\
            (pc s = Returned \/ pc s = Panicked).
Proof.
  split; [exact NAMES_FREQS_nonneg|]. exact (build_terminates _ NAMES_FREQS_nonneg).
Defined.

(** ** Bounds of the counters *)

Lemma freqs_u8_nonneg nfq : freqs_u8 nfq -> freqs_nonneg nfq.
Proof. intros Hu. eapply Forall_impl; [exact Hu|]. intros [? ?]. unfold in_width. lia. Qed.

Lemma freqs_u8_lookup nfq k name freq :
  freqs_u8 nfq -> nfq !! k = Some (name, freq) -> freq ∈w 8.
Proof. intros Hu Hk. exact (Forall_lookup_1 _ _ _ _ Hu Hk). Qed.

(** C26: at every test of the inner loop, for a table whose weights are
    [u8] as in the source: [i] indexes the table, the [u8] counter [j] is at
    most the weight (so [j += 1] never overflows), and [idx] is at most 256
    (so [idx += 1] never overflows and the write [arr[idx]] is out of bounds
    only at [idx = 256]). *)
Theorem build_counters_bounded nfq s :
  freqs_u8 nfq -> rtc (build_step nfq) build_init s -> pc s = AtInner ->
  0 <= i s < Z.of_nat (length nfq) /\ j s ∈w 8 /\ 0 <= idx s <= 256.
Proof.
  intros Hu Hr Hpc. pose proof (build_reachable_inv nfq s (freqs_u8_nonneg nfq Hu) Hr) as Hinv.
  unfold build_inv in Hinv. rewrite Hpc in Hinv.
  destruct Hinv as (name & freq & Hk & Hi & Hj & Hlen & _ & ->).
  pose proof (freqs_u8_lookup nfq _ _ _ Hu Hk) as Hf.
  apply lookup_lt_Some in Hk. unfold in_width, ARRAY_LEN in *. lia.
Qed.

Lemma one_istore_u8 : freqs_u8 one_istore.
Proof. unfold freqs_u8, one_istore. repeat constructor; vm_compute; discriminate. Qed.

Lemma build_counters_bounded_witness :
  freqs_u8 one_istore /\
  rtc (build_step one_istore) build_init (mkBuildState AtInner (replicate 256 EmptyString) 0 0 0) /\
  0 <= 0 < Z.of_nat (length one_istore) /\ (0 ∈w 8) /\ 0 <= 0 <= 256.
Proof.
  assert (Hr : rtc (build_step one_istore) build_init
                 (mkBuildState AtInner (replicate 256 EmptyString) 0 0 0)).
  { eapply rtc_l; [apply step_outer_enter; build_side | apply rtc_refl]. }
  split; [exact one_istore_u8|]. split; [exact Hr|].
  exact (build_counters_bounded _ _ one_istore_u8 Hr eq_refl).
Defined.

(** ** The exact length of a run, and the panic *)

Lemma work_from_0 nfq :
  freqs_nonneg nfq ->
  work_from nfq 0 = (Z.to_nat (total_freq nfq) + 2 * length nfq + 1)%nat.
Proof.
  unfold work_from. rewrite drop_0. induction 1 as [|[name f] nfq Hf Hrest IH]; [reflexivity|].
  rewrite total_freq_cons. cbn [foldr length]. rewrite IH.
  pose proof (total_freq_nonneg nfq Hrest). simpl in Hf. lia.
Qed.

(** C17: a run of [build_instruction_array] that returns makes exactly one
    step per write ([total] of them), two per table entry (entering and
    leaving its inner loop) and one to leave the outer loop: 317 steps on
    the source table. *)
Theorem build_step_count nfq n s :
  freqs_nonneg nfq -> nsteps (build_step nfq) n build_init s -> pc s = Returned ->
  n = (Z.to_nat (total_freq nfq) + 2 * length nfq + 1)%nat.
Proof.
  intros Hnf Hn Hs. rewrite <- work_from_0 by exact Hnf.
  exact (nsteps_returned nfq Hnf n build_init s (build_inv_init nfq) Hn Hs).
Qed.

(** C20: the error path of [build_instruction_array]. For non-negative
    weights, a run reaches the failing write [arr[idx] = name] exactly when
    the weights sum past 256, and it fails at [idx = 256] with the first 256
    names of the flattening already written. *)
Theorem build_panics_iff nfq :
  freqs_nonneg nfq ->
  (256 < total_freq nfq <-> exists s, rtc (build_step nfq) build_init s /\ pc s = Panicked) /\
  (forall s, rtc (build_step nfq) build_init s -> pc s = Panicked ->
     idx s = 256 /\ arr s = take 256 (expand nfq)).
Proof.
  intros Hnf. split; [split|].
  - intros Htot. destruct (build_init_wn nfq Hnf) as (s & Hr & Hs).
    pose proof (build_reachable_inv nfq s Hnf Hr) as Hinv.
    exists s. split; [exact Hr|].
    destruct (build_nf_final nfq s Hinv Hs) as [Hp | Hp]; [|exact Hp].
    unfold build_inv in Hinv. rewrite Hp in Hinv. lia.
  - intros (s & Hr & Hp). pose proof (build_reachable_inv nfq s Hnf Hr) as Hinv.
    unfold build_inv in Hinv. rewrite Hp in Hinv. tauto.
  - intros s Hr Hp. pose proof (build_reachable_inv nfq s Hnf Hr) as Hinv.
    unfold build_inv in Hinv. rewrite Hp in Hinv. tauto.
Qed.

Lemma overweight_istore_nonneg : freqs_nonneg overweight_istore.
Proof. unfold freqs_nonneg, overweight_istore. repeat constructor; simpl; lia. Qed.

Lemma build_step_count_witness :
  freqs_nonneg one_istore /\ nsteps (build_step one_istore) 4 build_init one_istore_final /\
  pc one_istore_final = Returned /\
  4%nat = (Z.to_nat (total_freq one_istore) + 2 * length one_istore + 1)%nat.
Proof.
  assert (Hn : nsteps (build_step one_istore) 4 build_init one_istore_final)
    by (unfold build_init, one_istore_final; build_run_n).
  split; [exact one_istore_nonneg|]. split; [exact Hn|]. split; [reflexivity|].
  exact (build_step_count _ _ _ one_istore_nonneg Hn eq_refl).
Defined.

Lemma build_panics_iff_witness :
  freqs_nonneg overweight_istore /\
  exists s, rtc (build_step overweight_istore) build_init s /\ pc s = Panicked.
Proof.
  split; [exact overweight_istore_nonneg|].
  apply (build_panics_iff _ overweight_istore_nonneg). vm_compute. reflexivity.
Defined.
