(* ===== verification/Disasm.v ===== *)
(** * The disassembler: [impl fmt::Display for Instruction]

    Models lines 146-207 of [src/ironlight/src/instruction.rs]. [fmt] is
    the [fmt] method: it reduces [dst] and [src] modulo
    [REGISTER_COUNT as u8] (a remainder by zero panics: [RemainderByZero]),
    looks the mnemonic up in [INSTR_NAMES] (an index past the table panics:
    [NameIndexOutOfBounds]) and matches it against the string patterns of
    the source in their order. The formatter is a [String] sink, which never
    fails, so the text is the whole result.

    [Asm] is the closed set of rendering families (the tagged variant the
    spec's design notes ask for); [decode] classifies an instruction into
    it and [print_asm] prints a family. They re-express the same match as
    [fmt] (so [fmt_as_decode], that the string dispatch of the source is
    [print_asm] after [decode], is a bridge, not a property); the theorems
    about text go through them. *)

From stdpp Require Import base list strings.
From Stdlib Require Import ZArith Lia Ascii.
From S2P Require Import Prelude Config Instruction Distribution.

Open Scope Z_scope.

(** Why [fmt] can panic. *)
Inductive FmtError :=
  | RemainderByZero
  | NameIndexOutOfBounds (index : Z).

(** The or-patterns of the two-register and register-memory arms. *)
Definition TWO_REG_NAMES : list string :=
  ["IADD_RS"; "IMUL_R"; "IMULH_R"; "ISMULH_R"; "IMUL_RCP"; "IXOR_R"; "IROR_R";
   "IROL_R"; "ISWAP_R"; "FSWAP_R"; "FADD_R"; "FSUB_R"; "FSCAL_R"; "FMUL_R";
   "FSQRT_R"].

Definition MEM_NAMES : list string :=
  ["IADD_M"; "ISUB_M"; "IMUL_M"; "IMULH_M"; "ISMULH_M"; "IXOR_M"; "FSUB_M";
   "FADD_M"; "FDIV_M"].

(** A pattern [p1 | p2 | ...] on a [&str]. *)
Definition matches_any (name : string) (pats : list string) : bool :=
  existsb (String.eqb name) pats.

Section Display.
Context `{VMConfig}.
Implicit Types i : Instruction.

Definition fmt i : result FmtError string :=
  if register_divisor =? 0 then Err RemainderByZero else
  let dst_index := dst i mod register_divisor in
  let src_index := src i mod register_divisor in
  match INSTR_NAMES !! Z.to_nat (opcode i) with
  | None => Err (NameIndexOutOfBounds (opcode i))
  | Some name =>
    Ok (if String.eqb name "ISUB_R" then
          if negb (dst_index =? src_index) then
            "ISUB_R r" +:+ fmt_u dst_index +:+ ", r" +:+ fmt_u src_index
          else
            "ISUB_R r" +:+ fmt_u dst_index +:+ ", " +:+ fmt_u (get_imm32 i)
        else if String.eqb name "ISTORE" then
          "ISTORE " +:+ get_address_reg_dst i +:+ "[r" +:+ fmt_u dst_index +:+ " "
            +:+ fmt_i (u32_as_i32 (get_imm32 i)) +:+ "], r" +:+ fmt_u src_index
        else if matches_any name TWO_REG_NAMES then
          name +:+ " r" +:+ fmt_u dst_index +:+ ", r" +:+ fmt_u src_index
        else if matches_any name MEM_NAMES then
          name +:+ " r" +:+ fmt_u dst_index +:+ ", [r" +:+ fmt_u src_index +:+ "]"
        else if String.eqb name "CBRANCH" then
          "CBRANCH " +:+ fmt_u (imm32 i)
        else if String.eqb name "CFROUND" then
          "CFROUND " +:+ fmt_u (dst i)
        else if String.eqb name "INEG_R" then
          "INEG_R r" +:+ fmt_u (dst i)
        else if String.eqb name "NOP" then
          "NOP"
        else name)
  end.
End Display.

(** ** The rendering families *)

Inductive Asm :=
  | AsmRegReg (mnemonic : string) (d s : Z)       (* "M rD, rS" *)
  | AsmRegMem (mnemonic : string) (d s : Z)       (* "M rD, [rS]" *)
  | AsmSubImm (d imm : Z)                         (* "ISUB_R rD, IMM" *)
  | AsmStore (space : string) (d offset s : Z)    (* "ISTORE SP[rD OFF], rS" *)
  | AsmBranch (imm : Z)                           (* "CBRANCH IMM" *)
  | AsmRound (mode : Z)                           (* "CFROUND MODE" *)
  | AsmNeg (d : Z)                                (* "INEG_R rD" *)
  | AsmNop                                        (* "NOP" *)
  | AsmBare (mnemonic : string).                  (* the default arm *)

#[export] Instance Asm_eq_dec : EqDecision Asm.
Proof. solve_decision. Defined.

Definition print_asm (a : Asm) : string :=
  match a with
  | AsmRegReg m d s => m +:+ " r" +:+ fmt_u d +:+ ", r" +:+ fmt_u s
  | AsmRegMem m d s => m +:+ " r" +:+ fmt_u d +:+ ", [r" +:+ fmt_u s +:+ "]"
  | AsmSubImm d imm => "ISUB_R r" +:+ fmt_u d +:+ ", " +:+ fmt_u imm
  | AsmStore sp d off s =>
      "ISTORE " +:+ sp +:+ "[r" +:+ fmt_u d +:+ " " +:+ fmt_i off +:+ "], r" +:+ fmt_u s
  | AsmBranch imm => "CBRANCH " +:+ fmt_u imm
  | AsmRound m => "CFROUND " +:+ fmt_u m
  | AsmNeg d => "INEG_R r" +:+ fmt_u d
  | AsmNop => "NOP"
  | AsmBare m => m
  end.

Section Decode.
Context `{VMConfig}.
Implicit Types i : Instruction.

(** The family of a named instruction, with its operands as printed. *)
Definition classify (name : string) i : Asm :=
  let d := dst i mod register_divisor in
  let s := src i mod register_divisor in
  if String.eqb name "ISUB_R" then
    if negb (d =? s) then AsmRegReg "ISUB_R" d s else AsmSubImm d (get_imm32 i)
  else if String.eqb name "ISTORE" then
    AsmStore (get_address_reg_dst i) d (u32_as_i32 (get_imm32 i)) s
  else if matches_any name TWO_REG_NAMES then AsmRegReg name d s
  else if matches_any name MEM_NAMES then AsmRegMem name d s
  else if String.eqb name "CBRANCH" then AsmBranch (imm32 i)
  else if String.eqb name "CFROUND" then AsmRound (dst i)
  else if String.eqb name "INEG_R" then AsmNeg (dst i)
  else if String.eqb name "NOP" then AsmNop
  else AsmBare name.

Definition decode i : result FmtError Asm :=
  if register_divisor =? 0 then Err RemainderByZero else
  match INSTR_NAMES !! Z.to_nat (opcode i) with
  | None => Err (NameIndexOutOfBounds (opcode i))
  | Some name => Ok (classify name i)
  end.
End Decode.

(** ** The source's dispatch is the family classification *)

(** Which mnemonics have an arm of their own in [fmt]. *)
Definition has_template (name : string) : bool :=
  String.eqb name "ISUB_R" || String.eqb name "ISTORE" || matches_any name TWO_REG_NAMES
  || matches_any name MEM_NAMES || String.eqb name "CBRANCH" || String.eqb name "CFROUND"
  || String.eqb name "INEG_R" || String.eqb name "NOP".

(** ** Reading a rendered line back

    [parse_asm] is the inverse of [print_asm] on well-formed families: it is
    not part of the crate, it states what a reader of the disassembly (a
    conformance test against the reference VM) can recover from the text. *)

(** The characters up to the first space, and the rest from that space. *)
Fixpoint split_word (s : string) : string * string :=
  match s with
  | EmptyString => (EmptyString, EmptyString)
  | String c s' =>
      if ascii_dec c " " then (EmptyString, s)
      else let '(w, r) := split_word s' in (String c w, r)
  end.

Fixpoint no_space (s : string) : bool :=
  match s with
  | EmptyString => true
  | String c s' => if ascii_dec c " " then false else no_space s'
  end.

Definition at_end (s : string) : option unit := if String.eqb s EmptyString then Some () else None.

(** ["r<n>"]. *)
Definition parse_reg (s : string) : option (Z * string) :=
  r ← strip_prefix "r" s; parse_u r.

Definition parse_label (s : string) : option (string * string) :=
  match strip_prefix L1_LABEL s with
  | Some r => Some (L1_LABEL, r)
  | None =>
    match strip_prefix L2_LABEL s with
    | Some r => Some (L2_LABEL, r)
    | None =>
      match strip_prefix L3_LABEL s with
      | Some r => Some (L3_LABEL, r)
      | None => None
      end
    end
  end.

(** [" rD, rS"] and [" rD, [rS]"]. *)
Definition parse_reg_reg (s : string) : option (Z * Z) :=
  r ← strip_prefix " " s; '(d, r) ← parse_reg r; r ← strip_prefix ", " r;
  '(x, r) ← parse_reg r; at_end r;; Some (d, x).

Definition parse_reg_mem (s : string) : option (Z * Z) :=
  r ← strip_prefix " " s; '(d, r) ← parse_reg r; r ← strip_prefix ", [" r;
  '(x, r) ← parse_reg r; r ← strip_prefix "]" r; at_end r;; Some (d, x).

Definition parse_asm (t : string) : option Asm :=
  let '(m, rest) := split_word t in
  if String.eqb m "ISUB_R" then
    r ← strip_prefix " " rest; '(d, r) ← parse_reg r; r ← strip_prefix ", " r;
    match parse_reg r with
    | Some (x, r') => at_end r';; Some (AsmRegReg "ISUB_R" d x)
    | None => '(imm, r') ← parse_u r; at_end r';; Some (AsmSubImm d imm)
    end
  else if String.eqb m "ISTORE" then
    r ← strip_prefix " " rest; '(sp, r) ← parse_label r; r ← strip_prefix "[" r;
    '(d, r) ← parse_reg r; r ← strip_prefix " " r; '(off, r) ← parse_i r;
    r ← strip_prefix "], " r; '(x, r) ← parse_reg r; at_end r;;
    Some (AsmStore sp d off x)
  else if matches_any m TWO_REG_NAMES then
    '(d, x) ← parse_reg_reg rest; Some (AsmRegReg m d x)
  else if matches_any m MEM_NAMES then
    '(d, x) ← parse_reg_mem rest; Some (AsmRegMem m d x)
  else if String.eqb m "CBRANCH" then
    r ← strip_prefix " " rest; '(n, r) ← parse_u r; at_end r;; Some (AsmBranch n)
  else if String.eqb m "CFROUND" then
    r ← strip_prefix " " rest; '(n, r) ← parse_u r; at_end r;; Some (AsmRound n)
  else if String.eqb m "INEG_R" then
    r ← strip_prefix " " rest; '(d, r) ← parse_reg r; at_end r;; Some (AsmNeg d)
  else if String.eqb m "NOP" then
    at_end rest;; Some AsmNop
  else
    at_end rest;; Some (AsmBare m).

(** The families [fmt] can produce from a well-formed instruction. *)
Definition asm_wf (a : Asm) : Prop :=
  match a with
  | AsmRegReg m d s => (m ∈ TWO_REG_NAMES \/ m = "ISUB_R") /\ 0 <= d /\ 0 <= s
  | AsmRegMem m d s => m ∈ MEM_NAMES /\ 0 <= d /\ 0 <= s
  | AsmSubImm d imm => 0 <= d /\ 0 <= imm
  | AsmStore sp d _ s => sp ∈ [L1_LABEL; L2_LABEL; L3_LABEL] /\ 0 <= d /\ 0 <= s
  | AsmBranch n | AsmRound n | AsmNeg n => 0 <= n
  | AsmNop => True
  | AsmBare m => has_template m = false /\ no_space m = true
  end.

(** The numbers a family prints with an [r] prefix, as register names. *)
Definition reg_operands (a : Asm) : list Z :=
  match a with
  | AsmRegReg _ d s | AsmRegMem _ d s | AsmStore _ d _ s => [d; s]
  | AsmSubImm d _ | AsmNeg d => [d]
  | _ => []
  end.

Lemma matches_any_spec name pats : matches_any name pats = true <-> name ∈ pats.
Proof.
  unfold matches_any. rewrite existsb_exists, list_elem_of_In.
  split; [intros (x & Hx & E); apply String.eqb_eq in E; subst; exact Hx|].
  intros Hx. exists name. split; [exact Hx | apply String.eqb_refl].
Qed.

(** ** Lemmas for reading the text back *)

Arguments parse_reg : simpl never.

Create Rewrite HintDb ironlight_parse.

Lemma parse_reg_fmt n rest :
  0 <= n -> starts_with_digit rest = false ->
  parse_reg (String "r" (fmt_u n +:+ rest)) = Some (n, rest).
Proof. intros. unfold parse_reg. simpl. by apply parse_u_fmt_u. Qed.

Lemma parse_reg_fmt_end n : 0 <= n -> parse_reg (String "r" (fmt_u n)) = Some (n, EmptyString).
Proof. intros. unfold parse_reg. simpl. by apply parse_u_fmt_u_end. Qed.

Lemma parse_reg_num n rest : parse_reg (fmt_u n +:+ rest) = None.
Proof. unfold parse_reg. by rewrite strip_prefix_fmt_u. Qed.

Lemma parse_reg_num_end n : parse_reg (fmt_u n) = None.
Proof. rewrite <- (string_app_nil_r (fmt_u n)). apply parse_reg_num. Qed.

#[export] Hint Rewrite parse_reg_fmt parse_reg_fmt_end parse_reg_num parse_reg_num_end
  using (lia || reflexivity) : ironlight_parse.

Ltac parse_steps :=
  repeat first [ progress autorewrite with ironlight_str ironlight_rw ironlight_parse
               | progress simpl ].

Lemma split_word_no_space w : no_space w = true -> split_word w = (w, EmptyString).
Proof.
  induction w as [|c w IH]; [reflexivity|]. simpl.
  destruct (ascii_dec c " "); [discriminate|]. intros Hw. by rewrite IH.
Qed.

Lemma split_word_app w rest :
  no_space w = true -> split_word (w +:+ String " " rest) = (w, String " " rest).
Proof.
  induction w as [|c w IH]; [reflexivity|]. rewrite append_string_cons. simpl.
  destruct (ascii_dec c " "); [discriminate|]. intros Hw. by rewrite IH.
Qed.

Lemma parse_label_app l rest :
  l ∈ [L1_LABEL; L2_LABEL; L3_LABEL] -> parse_label (l +:+ rest) = Some (l, rest).
Proof.
  intros Hl. repeat (apply elem_of_cons in Hl as [-> | Hl]); [reflexivity..|].
  by apply elem_of_nil in Hl.
Qed.

Lemma two_reg_name_facts m :
  m ∈ TWO_REG_NAMES ->
  no_space m = true /\ String.eqb m "ISUB_R" = false /\ String.eqb m "ISTORE" = false /\
  matches_any m TWO_REG_NAMES = true.
Proof.
  intros Hm. repeat (apply elem_of_cons in Hm as [-> | Hm]); [repeat split..|].
  by apply elem_of_nil in Hm.
Qed.

Lemma mem_name_facts m :
  m ∈ MEM_NAMES ->
  no_space m = true /\ String.eqb m "ISUB_R" = false /\ String.eqb m "ISTORE" = false /\
  matches_any m TWO_REG_NAMES = false /\ matches_any m MEM_NAMES = true.
Proof.
  intros Hm. repeat (apply elem_of_cons in Hm as [-> | Hm]); [repeat split..|].
  by apply elem_of_nil in Hm.
Qed.

Lemma no_template_facts m :
  has_template m = false ->
  String.eqb m "ISUB_R" = false /\ String.eqb m "ISTORE" = false /\
  matches_any m TWO_REG_NAMES = false /\ matches_any m MEM_NAMES = false /\
  String.eqb m "CBRANCH" = false /\ String.eqb m "CFROUND" = false /\
  String.eqb m "INEG_R" = false /\ String.eqb m "NOP" = false.
Proof. unfold has_template. intros H. repeat rewrite orb_false_iff in H. tauto. Qed.

(** [print_asm] loses nothing on a well-formed family. *)
Lemma parse_print a : asm_wf a -> parse_asm (print_asm a) = Some a.
Proof.
  destruct a as [m d x|m d x|d imm|sp d off x|n|n|d| |m]; simpl asm_wf;
    unfold print_asm, parse_asm.
  - intros [[Hm | ->] [Hd Hx]].
    + destruct (two_reg_name_facts m Hm) as (Hns & H1 & H2 & H3).
      autorewrite with ironlight_str. rewrite split_word_app by exact Hns.
      cbv beta iota. rewrite H1, H2, H3.
      unfold parse_reg_reg. parse_steps. reflexivity.
    + parse_steps. reflexivity.
  - intros [Hm [Hd Hx]]. destruct (mem_name_facts m Hm) as (Hns & H1 & H2 & H3 & H4).
    autorewrite with ironlight_str. rewrite split_word_app by exact Hns.
    cbv beta iota. rewrite H1, H2, H3, H4.
    unfold parse_reg_mem. parse_steps. reflexivity.
  - intros [Hd Himm]. parse_steps. reflexivity.
  - intros [Hsp [Hd Hx]]. parse_steps. rewrite parse_label_app by exact Hsp.
    parse_steps. reflexivity.
  - intros Hn. parse_steps. reflexivity.
  - intros Hn. parse_steps. reflexivity.
  - intros Hd. parse_steps. reflexivity.
  - intros _. reflexivity.
  - intros [Ht Hns]. destruct (no_template_facts m Ht) as (H1 & H2 & H3 & H4 & H5 & H6 & H7 & H8).
    rewrite split_word_no_space by exact Hns. cbv beta iota.
    rewrite H1, H2, H3, H4, H5, H6, H7, H8. reflexivity.
Qed.

Section DisplayProofs.
Context `{VMConfig}.
Implicit Types i : Instruction.

Lemma fmt_as_decode i : fmt i = print_asm <$> decode i.
Proof.
  unfold fmt, decode. destruct (register_divisor =? 0); [reflexivity|].
  destruct (INSTR_NAMES !! _) as [name|]; [|reflexivity].
  unfold classify. cbn [fmap result_fmap].
  repeat match goal with |- context [if ?b then _ else _] => destruct b end;
    reflexivity.
Qed.

Lemma decode_ok i :
  register_divisor <> 0 -> opcode i ∈w 8 ->
  exists name, INSTR_NAMES !! Z.to_nat (opcode i) = Some name /\
    decode i = Ok (classify name i).
Proof.
  intros Hrd Hop. destruct (INSTR_NAMES_lookup_declared (opcode i) Hop) as (name & f & Hname & _).
  exists name. split; [exact Hname|]. unfold decode.
  rewrite (proj2 (Z.eqb_neq _ _) Hrd), Hname. reflexivity.
Qed.

(** C8: with a non-zero divisor [REGISTER_COUNT as u8], [fmt] never
    panics on an instruction whose opcode is a byte. *)
Theorem fmt_total i :
  register_divisor <> 0 -> opcode i ∈w 8 ->
  exists a, decode i = Ok a /\ fmt i = Ok (print_asm a).
Proof.
  intros Hrd Hop. destruct (decode_ok i Hrd Hop) as (name & _ & Hd).
  exists (classify name i). split; [exact Hd|]. by rewrite fmt_as_decode, Hd.
Qed.

(** When [REGISTER_COUNT as u8] is zero (a register count that is a
    multiple of 256 wraps to 0 in the cast), [fmt] panics on every
    instruction, whatever its opcode. *)
Theorem fmt_zero_divisor_panics i :
  as_u8 REGISTER_COUNT = 0 -> fmt i = Err RemainderByZero.
Proof. intros Hz. unfold fmt, register_divisor. by rewrite Hz. Qed.
End DisplayProofs.

Lemma declared_has_template name freq :
  (name, freq) ∈ NAMES_FREQS -> has_template name = true.
Proof.
  intros Hin.
  assert (Hall : Forall (fun p => has_template p.1 = true) NAMES_FREQS) by (repeat constructor).
  exact (proj1 (Forall_forall _ _) Hall _ Hin).
Qed.

Lemma store_space_label `{VMConfig} i :
  get_address_reg_dst i ∈ [L1_LABEL; L2_LABEL; L3_LABEL].
Proof.
  unfold get_address_reg_dst.
  destruct (_ <? _); [destruct (negb _)|]; repeat constructor.
Qed.

Section DecodeProofs.
Context `{VMConfig}.
Implicit Types i : Instruction.

Lemma mod_divisor_range (x : Z) :
  register_divisor <> 0 -> 0 <= x mod register_divisor < register_divisor.
Proof.
  intros Hrd. pose proof register_divisor_u8 as Hu. unfold in_width in Hu.
  apply Z.mod_pos_bound. lia.
Qed.

(** What [classify] produces for a name that has a template. *)
Lemma classify_wf name i :
  register_divisor <> 0 -> Instruction_wf i -> has_template name = true ->
  asm_wf (classify name i) /\ classify name i <> AsmNop \/ name = "NOP".
Proof.
  intros Hrd (Ho & Hd & Hs & Hm & Himm) Ht. unfold in_width in *.
  pose proof (mod_divisor_range (dst i) Hrd). pose proof (mod_divisor_range (src i) Hrd).
  unfold classify, has_template in *.
  destruct (String.eqb_spec name "ISUB_R") as [->|];
    [destruct (negb _); left; split; simpl; (lia || tauto || discriminate)|].
  destruct (String.eqb_spec name "ISTORE") as [->|];
    [left; split; [simpl; split; [apply store_space_label | lia] | discriminate]|].
  destruct (matches_any name TWO_REG_NAMES) eqn:E2;
    [left; apply matches_any_spec in E2; split; [simpl; tauto | discriminate]|].
  destruct (matches_any name MEM_NAMES) eqn:E3;
    [left; apply matches_any_spec in E3; split; [simpl; tauto | discriminate]|].
  destruct (String.eqb_spec name "CBRANCH"); [left; split; [simpl; lia | discriminate]|].
  destruct (String.eqb_spec name "CFROUND"); [left; split; [simpl; lia | discriminate]|].
  destruct (String.eqb_spec name "INEG_R"); [left; split; [simpl; lia | discriminate]|].
  destruct (String.eqb_spec name "NOP"); [right; assumption | discriminate].
Qed.

(** The default arm is taken only for a name without a template. *)
Lemma classify_bare name i m : classify name i = AsmBare m -> has_template name = false.
Proof.
  unfold classify, has_template.
  destruct (String.eqb name "ISUB_R"); [destruct (negb _); discriminate|].
  destruct (String.eqb name "ISTORE"); [discriminate|].
  destruct (matches_any name TWO_REG_NAMES); [discriminate|].
  destruct (matches_any name MEM_NAMES); [discriminate|].
  destruct (String.eqb name "CBRANCH"); [discriminate|].
  destruct (String.eqb name "CFROUND"); [discriminate|].
  destruct (String.eqb name "INEG_R"); [discriminate|].
  destruct (String.eqb name "NOP"); [discriminate | reflexivity].
Qed.

(** Every instruction decodes to a well-formed family other than the
    [NOP] and default arms. *)
Lemma decode_wf i :
  register_divisor <> 0 -> Instruction_wf i ->
  exists a, decode i = Ok a /\ asm_wf a /\ a <> AsmNop /\ (forall m, a <> AsmBare m).
Proof.
  intros Hrd Hwf. pose proof Hwf as (Ho & _).
  destruct (INSTR_NAMES_lookup_declared (opcode i) Ho) as (name & f & Hname & Hin & _).
  assert (Hnop : name <> "NOP").
  { intros ->. apply NOP_not_in_INSTR_NAMES. by eapply list_elem_of_lookup_2. }
  exists (classify name i). split.
  { unfold decode. by rewrite (proj2 (Z.eqb_neq _ _) Hrd), Hname. }
  destruct (classify_wf name i Hrd Hwf (declared_has_template _ _ Hin))
    as [[Ha Hn] | ?]; [|congruence].
  split; [exact Ha|]. split; [exact Hn|].
  intros m Hm. apply classify_bare in Hm.
  rewrite (declared_has_template _ _ Hin) in Hm. discriminate.
Qed.
End DecodeProofs.

Section DisasmTheorems.
Context `{VMConfig}.
Implicit Types i : Instruction.

(** C6: the disassembly of a well-formed instruction reads back: parsing
    the text [fmt] produces gives the family [decode] assigns, operands
    included. *)
Theorem fmt_roundtrip i :
  register_divisor <> 0 -> Instruction_wf i ->
  exists a t, decode i = Ok a /\ fmt i = Ok t /\ parse_asm t = Some a.
Proof.
  intros Hrd Hwf. destruct (decode_wf i Hrd Hwf) as (a & Hd & Ha & _).
  exists a, (print_asm a). split; [exact Hd|]. split.
  - by rewrite fmt_as_decode, Hd.
  - exact (parse_print a Ha).
Qed.

(** C7: the rendering is unambiguous: two well-formed instructions with
    the same disassembly text decode to the same family with the same
    operands. *)
Theorem fmt_determines_decode i j :
  register_divisor <> 0 -> Instruction_wf i -> Instruction_wf j ->
  fmt i = fmt j -> decode i = decode j.
Proof.
  intros Hrd Hi Hj E.
  destruct (decode_wf i Hrd Hi) as (a & Ha & Hwa & _).
  destruct (decode_wf j Hrd Hj) as (b & Hb & Hwb & _).
  rewrite !fmt_as_decode, Ha, Hb in E. injection E as E.
  rewrite Ha, Hb. f_equal.
  apply (f_equal parse_asm) in E. rewrite !parse_print in E by assumption.
  congruence.
Qed.

(** C14: the [NOP] arm and the default arm of [fmt] are dead code: no
    opcode reaches them, because [NOP] has weight 0 and every other
    declared mnemonic has an arm of its own. *)
Theorem decode_no_default_arm i :
  register_divisor <> 0 -> Instruction_wf i ->
  exists a, decode i = Ok a /\ a <> AsmNop /\ forall m, a <> AsmBare m.
Proof.
  intros Hrd Hwf. destruct (decode_wf i Hrd Hwf) as (a & Hd & _ & Hn & Hb).
  exists a. auto.
Qed.

(** C13: every register the disassembly names is a register of the VM
    (below [REGISTER_COUNT as u8]), except the operand of [INEG_R]. *)
Theorem decode_registers_in_range i a :
  register_divisor <> 0 -> decode i = Ok a -> (forall d, a <> AsmNeg d) ->
  Forall (fun r => 0 <= r < register_divisor) (reg_operands a).
Proof.
  intros Hrd Hd Hneg. unfold decode in Hd.
  rewrite (proj2 (Z.eqb_neq _ _) Hrd) in Hd.
  destruct (INSTR_NAMES !! _) as [name|]; [|discriminate]. injection Hd as <-.
  pose proof (mod_divisor_range (dst i) Hrd). pose proof (mod_divisor_range (src i) Hrd).
  unfold classify in *.
  repeat match goal with |- context [if ?b then _ else _] => destruct b end;
    simpl; repeat constructor; try lia.
  all: try (exfalso; eapply Hneg; reflexivity).
Qed.

(** C12: the subtract special case: an [ISUB_R] instruction whose two
    reduced registers coincide renders its immediate in place of the
    source register. *)
Theorem fmt_isub_r i :
  register_divisor <> 0 -> INSTR_NAMES !! Z.to_nat (opcode i) = Some "ISUB_R" ->
  fmt i = Ok (if dst i mod register_divisor =? src i mod register_divisor
              then "ISUB_R r" +:+ fmt_u (dst i mod register_divisor) +:+ ", "
                     +:+ fmt_u (imm32 i)
              else "ISUB_R r" +:+ fmt_u (dst i mod register_divisor) +:+ ", r"
                     +:+ fmt_u (src i mod register_divisor)).
Proof.
  intros Hrd Hname. unfold fmt. rewrite (proj2 (Z.eqb_neq _ _) Hrd), Hname.
  simpl. by destruct (_ =? _).
Qed.

Lemma fmt_ineg_r_eq i :
  register_divisor <> 0 -> INSTR_NAMES !! Z.to_nat (opcode i) = Some "INEG_R" ->
  fmt i = Ok ("INEG_R r" +:+ fmt_u (dst i)).
Proof.
  intros Hrd Hname. unfold fmt. rewrite (proj2 (Z.eqb_neq _ _) Hrd), Hname.
  reflexivity.
Qed.

(** C18: [INEG_R] prints its destination byte as a register without
    reducing it modulo the register count, unlike every other register
    operand: [dst = 9] is printed as [r9] on an 8-register VM. *)
Theorem fmt_ineg_r_unreduced i :
  register_divisor <> 0 -> INSTR_NAMES !! Z.to_nat (opcode i) = Some "INEG_R" ->
  fmt i = Ok ("INEG_R r" +:+ fmt_u (dst i)).
Proof. exact (fmt_ineg_r_eq i). Qed.

(** C32: the error paths of [fmt], for an opcode read as a [usize]: it
    fails exactly when [REGISTER_COUNT as u8] is zero (the remainder
    panics first, whatever the opcode) or, with a non-zero divisor, when
    the opcode is past the 256 entries of [INSTR_NAMES] (the index
    panics); a [u8] opcode never reaches the second. *)
Theorem fmt_error_iff i e :
  0 <= opcode i ->
  fmt i = Err e <->
  (register_divisor = 0 /\ e = RemainderByZero) \/
  (register_divisor <> 0 /\ 256 <= opcode i /\ e = NameIndexOutOfBounds (opcode i)).
Proof.
  intros Ho. unfold fmt. destruct (Z.eqb_spec register_divisor 0) as [Hz|Hz].
  { split; [intros [= <-]; by left | intros [[_ ->] | [? _]]; [reflexivity | contradiction]]. }
  destruct (INSTR_NAMES !! Z.to_nat (opcode i)) eqn:E.
  - apply lookup_lt_Some in E. rewrite length_INSTR_NAMES in E. unfold ARRAY_LEN in E.
    split; [discriminate | intros [[? _] | (_ & ? & _)]; [contradiction | lia]].
  - apply lookup_ge_None in E. rewrite length_INSTR_NAMES in E. unfold ARRAY_LEN in E.
    split; [intros [= <-]; right; split_and!; [done | lia | done] |].
    intros [[? _] | (_ & _ & ->)]; [contradiction | reflexivity].
Qed.
(** C21: the offset an [ISTORE] prints is the immediate read as an [i32]:
    it lies in [[-2^31, 2^31)] and is congruent to the [u32] immediate
    modulo [2^32]. *)
Theorem decode_store_offset i sp d off s :
  Instruction_wf i -> decode i = Ok (AsmStore sp d off s) ->
  - 2 ^ 31 <= off < 2 ^ 31 /\ off mod 2 ^ 32 = imm32 i.
Proof.
  intros (_ & _ & _ & _ & Himm) Hd. unfold decode in Hd.
  destruct (_ =? 0); [discriminate|].
  destruct (INSTR_NAMES !! _) as [name|]; [|discriminate]. injection Hd as Hd.
  unfold classify in Hd.
  repeat match goal with H : context [if ?b then _ else _] |- _ => destruct b end;
    try discriminate.
  injection Hd as _ _ <- _.
  split; [apply u32_as_i32_range | apply u32_as_i32_wrap]; exact Himm.
Qed.
End DisasmTheorems.

(** ** Concrete instances (RandomX configuration) *)

Lemma randomx_divisor_nonzero : register_divisor <> 0.
Proof. vm_compute. discriminate. Qed.

Lemma fmt_total_witness :
  register_divisor <> 0 /\ opcode (new 240 9 2 1 4294967292) ∈w 8 /\
  exists a, decode (new 240 9 2 1 4294967292) = Ok a /\
            fmt (new 240 9 2 1 4294967292) = Ok (print_asm a).
Proof.
  assert (Ho : opcode (new 240 9 2 1 4294967292) ∈w 8) by (unfold in_width; simpl; lia).
  split; [exact randomx_divisor_nonzero|]. split; [exact Ho|].
  exact (fmt_total _ randomx_divisor_nonzero Ho).
Defined.

Lemma fmt_zero_divisor_panics_witness :
  @REGISTER_COUNT wide_register_config = 256 /\
  as_u8 (@REGISTER_COUNT wide_register_config) = 0 /\
  @fmt wide_register_config (new 0 1 2 0 0) = Err RemainderByZero.
Proof.
  assert (Hz : as_u8 (@REGISTER_COUNT wide_register_config) = 0) by reflexivity.
  split; [reflexivity|]. split; [exact Hz|].
  exact (@fmt_zero_divisor_panics wide_register_config _ Hz).
Defined.

Lemma wf_example : Instruction_wf (new 240 9 2 1 4294967292).
Proof. unfold Instruction_wf, in_width; simpl; lia. Qed.

Lemma fmt_roundtrip_witness :
  register_divisor <> 0 /\ Instruction_wf (new 240 9 2 1 4294967292) /\
  exists a t, decode (new 240 9 2 1 4294967292) = Ok a /\
    fmt (new 240 9 2 1 4294967292) = Ok t /\ parse_asm t = Some a.
Proof.
  split; [exact randomx_divisor_nonzero|]. split; [exact wf_example|].
  exact (fmt_roundtrip _ randomx_divisor_nonzero wf_example).
Defined.

Lemma fmt_determines_decode_witness :
  register_divisor <> 0 /\ Instruction_wf (new 0 1 2 0 0) /\ Instruction_wf (new 0 9 10 0 0) /\
  fmt (new 0 1 2 0 0) = fmt (new 0 9 10 0 0) /\
  decode (new 0 1 2 0 0) = decode (new 0 9 10 0 0).
Proof.
  assert (Hi : Instruction_wf (new 0 1 2 0 0)) by (unfold Instruction_wf, in_width; simpl; lia).
  assert (Hj : Instruction_wf (new 0 9 10 0 0)) by (unfold Instruction_wf, in_width; simpl; lia).
  assert (E : fmt (new 0 1 2 0 0) = fmt (new 0 9 10 0 0)) by (vm_compute; reflexivity).
  split; [exact randomx_divisor_nonzero|]. split; [exact Hi|]. split; [exact Hj|].
  split; [exact E|]. exact (fmt_determines_decode _ _ randomx_divisor_nonzero Hi Hj E).
Defined.

Lemma decode_no_default_arm_witness :
  register_divisor <> 0 /\ Instruction_wf (new 240 9 2 1 4294967292) /\
  exists a, decode (new 240 9 2 1 4294967292) = Ok a /\ a <> AsmNop /\ forall m, a <> AsmBare m.
Proof.
  split; [exact randomx_divisor_nonzero|]. split; [exact wf_example|].
  exact (decode_no_default_arm _ randomx_divisor_nonzero wf_example).
Defined.

Lemma decode_registers_in_range_witness :
  register_divisor <> 0 /\
  decode (new 240 9 2 1 4294967292) = Ok (AsmStore "L1" 1 (-4) 2) /\
  (forall d, AsmStore "L1" 1 (-4) 2 <> AsmNeg d) /\
  Forall (fun r => 0 <= r < register_divisor) (reg_operands (AsmStore "L1" 1 (-4) 2)).
Proof.
  assert (Hd : decode (new 240 9 2 1 4294967292) = Ok (AsmStore "L1" 1 (-4) 2))
    by (vm_compute; reflexivity).
  assert (Hn : forall d, AsmStore "L1" 1 (-4) 2 <> AsmNeg d) by discriminate.
  split; [exact randomx_divisor_nonzero|]. split; [exact Hd|]. split; [exact Hn|].
  exact (decode_registers_in_range _ _ randomx_divisor_nonzero Hd Hn).
Defined.

Lemma fmt_isub_r_witness :
  register_divisor <> 0 /\ INSTR_NAMES !! Z.to_nat (opcode (new 23 3 11 0 7)) = Some "ISUB_R" /\
  fmt (new 23 3 11 0 7) = Ok "ISUB_R r3, 7".
Proof.
  assert (Hn : INSTR_NAMES !! Z.to_nat (opcode (new 23 3 11 0 7)) = Some "ISUB_R")
    by (vm_compute; reflexivity).
  split; [exact randomx_divisor_nonzero|]. split; [exact Hn|].
  rewrite (fmt_isub_r _ randomx_divisor_nonzero Hn). vm_compute. reflexivity.
Defined.

Lemma fmt_ineg_r_unreduced_witness :
  register_divisor <> 0 /\ INSTR_NAMES !! Z.to_nat (opcode (new 84 9 0 0 0)) = Some "INEG_R" /\
  REGISTER_COUNT <= dst (new 84 9 0 0 0) /\
  fmt (new 84 9 0 0 0) = Ok "INEG_R r9".
Proof.
  assert (Hn : INSTR_NAMES !! Z.to_nat (opcode (new 84 9 0 0 0)) = Some "INEG_R")
    by (vm_compute; reflexivity).
  split; [exact randomx_divisor_nonzero|]. split; [exact Hn|]. split; [simpl; lia|].
  rewrite (fmt_ineg_r_unreduced _ randomx_divisor_nonzero Hn). reflexivity.
Defined.

Lemma decode_store_offset_witness :
  Instruction_wf (new 240 9 2 1 4294967292) /\
  decode (new 240 9 2 1 4294967292) = Ok (AsmStore "L1" 1 (-4) 2) /\
  - 2 ^ 31 <= -4 < 2 ^ 31 /\ -4 mod 2 ^ 32 = imm32 (new 240 9 2 1 4294967292).
Proof.
  assert (Hd : decode (new 240 9 2 1 4294967292) = Ok (AsmStore "L1" 1 (-4) 2))
    by (vm_compute; reflexivity).
  split; [exact wf_example|]. split; [exact Hd|].
  exact (decode_store_offset _ _ _ _ _ wf_example Hd).
Defined.

Lemma fmt_error_iff_witness :
  0 <= opcode (new 300 0 0 0 0) /\
  fmt (new 300 0 0 0 0) = Err (NameIndexOutOfBounds 300).
Proof.
  assert (Ho : 0 <= opcode (new 300 0 0 0 0)) by (simpl; lia). split; [exact Ho|].
  apply (fmt_error_iff _ _ Ho). right. split_and!; [exact randomx_divisor_nonzero | simpl; lia | reflexivity].
Defined.

(** ** Register counts past a byte *)

Section Truncation.
Context `{VMConfig}.
Implicit Types i : Instruction.

(** C30: the cast [REGISTER_COUNT as u8] misprints registers on a VM with
    256 registers or more: for a two-register instruction whose [dst] byte
    is 255 (a register of such a VM), the text is not the one the spec's
    reduction modulo [REGISTER_COUNT] gives. *)
Theorem fmt_register_count_truncated i :
  256 <= REGISTER_COUNT -> register_divisor <> 0 ->
  INSTR_NAMES !! Z.to_nat (opcode i) = Some "IADD_RS" -> dst i = 255 -> 0 <= src i ->
  fmt i <> Ok (print_asm (AsmRegReg "IADD_RS" (dst i mod REGISTER_COUNT)
                                                (src i mod REGISTER_COUNT))).
Proof.
  intros HRC Hrd Hname Hd Hs. pose proof register_divisor_u8 as Hu. unfold in_width in Hu.
  rewrite fmt_as_decode. unfold decode.
  rewrite (proj2 (Z.eqb_neq _ _) Hrd), Hname. cbn [fmap result_fmap].
  assert (Hc : classify "IADD_RS" i =
               AsmRegReg "IADD_RS" (dst i mod register_divisor) (src i mod register_divisor))
    by reflexivity.
  rewrite Hc. intros E.
  assert (Hin : "IADD_RS" ∈ TWO_REG_NAMES) by apply list_elem_of_here.
  apply (f_equal (fmap parse_asm)) in E. cbn [fmap result_fmap] in E.
  rewrite !parse_print in E.
  - injection E as Ed _. rewrite Hd, (Z.mod_small 255 REGISTER_COUNT) in Ed by lia.
    assert (Hdp : 0 < register_divisor) by lia.
    pose proof (Z.mod_pos_bound 255 register_divisor Hdp). lia.
  - split; [by left|]. split; apply Z.mod_pos_bound; lia.
  - split; [by left|]. split; apply Z.mod_pos_bound; lia.
Qed.
End Truncation.

(** On a 264-register VM the divisor is 8: [dst = 255] prints as [r7],
    not as [r255]. *)
Lemma fmt_register_count_truncated_witness :
  256 <= @REGISTER_COUNT register264_config /\ @register_divisor register264_config <> 0 /\
  @fmt register264_config (new 0 255 0 0 0) = Ok "IADD_RS r7, r0" /\
  @fmt register264_config (new 0 255 0 0 0) <> Ok (print_asm (AsmRegReg "IADD_RS" 255 0)).
Proof.
  assert (HRC : 256 <= @REGISTER_COUNT register264_config) by (vm_compute; discriminate).
  assert (Hrd : @register_divisor register264_config <> 0) by (vm_compute; discriminate).
  assert (Hn : INSTR_NAMES !! Z.to_nat (opcode (new 0 255 0 0 0)) = Some "IADD_RS")
    by (vm_compute; reflexivity).
  split_and!; [exact HRC | exact Hrd | vm_compute; reflexivity |].
  exact (@fmt_register_count_truncated register264_config (new 0 255 0 0 0)
           HRC Hrd Hn eq_refl ltac:(simpl; lia)).
Defined.
