(* ===== verification/RegEquiv.v ===== *)
(** * Instructions equal up to register reduction

    [fmt] reads the [dst] and [src] bytes through [x mod (REGISTER_COUNT as
    u8)], except in the [CFROUND] and [INEG_R] arms, which print the raw
    [dst] byte. [instr_equiv] relates instructions that agree on every field
    once the register bytes are reduced; it is an equivalence, [classify] is
    a morphism for it on every mnemonic but those two, and so an
    instruction renders as its register-normalised form
    ([fmt_normalize]). Those two arms are exactly the ones that break the
    equivalence ([classify_proper_iff], [fmt_ineg_r_not_equiv_invariant]). The
    reduction itself divides by [REGISTER_COUNT as u8], which misprints
    registers on a VM of 256 registers or more
    ([Disasm.fmt_register_count_truncated]). *)

From stdpp Require Import base list strings.
From Stdlib Require Import ZArith Lia Morphisms.
From S2P Require Import Prelude Config Instruction Distribution Disasm.

Open Scope Z_scope.

Section RegEquiv.
Context `{VMConfig}.
Implicit Types i j : Instruction.

Definition instr_equiv i j : Prop :=
  opcode i = opcode j /\ mod_ i = mod_ j /\ imm32 i = imm32 j /\
  dst i mod register_divisor = dst j mod register_divisor /\
  src i mod register_divisor = src j mod register_divisor.

(** The representative with reduced register bytes. *)
Definition normalize i : Instruction :=
  new (opcode i) (dst i mod register_divisor) (src i mod register_divisor) (mod_ i) (imm32 i).

(** The same instruction with its [dst] byte moved up by [k]. *)
Definition dst_twin i (k : Z) : Instruction :=
  new (opcode i) (dst i + k) (src i) (mod_ i) (imm32 i).

(** The mnemonics whose arm prints a raw register byte. *)
Definition reads_raw_dst (name : string) : bool :=
  String.eqb name "CFROUND" || String.eqb name "INEG_R".

#[export] Instance instr_equiv_equiv : Equivalence instr_equiv.
Proof.
  split.
  - intros i. unfold instr_equiv. tauto.
  - intros i j (? & ? & ? & ? & ?). unfold instr_equiv. auto.
  - intros i j k (? & ? & ? & ? & ?) (? & ? & ? & ? & ?). unfold instr_equiv.
    repeat split; congruence.
Qed.

#[export] Instance instr_equiv_dec i j : Decision (instr_equiv i j).
Proof. unfold instr_equiv. apply _. Defined.

Lemma normalize_equiv i : register_divisor <> 0 -> instr_equiv i (normalize i).
Proof.
  intros Hrd. unfold instr_equiv, normalize, new; simpl.
  rewrite !Z.mod_mod by exact Hrd. tauto.
Qed.

#[export] Instance get_address_reg_dst_proper : Proper (instr_equiv ==> eq) get_address_reg_dst.
Proof.
  intros i j (_ & Hm & _). unfold get_address_reg_dst, get_mod_cond, get_mod_mem.
  by rewrite Hm.
Qed.

(** [classify] depends on the register bytes only through their reduction,
    for every mnemonic whose arm does not print the raw [dst] byte. *)
Lemma classify_proper name :
  reads_raw_dst name = false -> Proper (instr_equiv ==> eq) (classify name).
Proof.
  intros Hraw i j Hij. pose proof Hij as (_ & _ & Himm & Hd & Hs).
  unfold reads_raw_dst in Hraw. apply orb_false_iff in Hraw as [Hcf Hng].
  unfold classify, get_imm32. rewrite Hd, Hs, Himm, (get_address_reg_dst_proper i j Hij).
  rewrite Hcf, Hng. reflexivity.
Qed.

Lemma decode_lookup_equiv i j :
  instr_equiv i j -> INSTR_NAMES !! Z.to_nat (opcode i) = INSTR_NAMES !! Z.to_nat (opcode j).
Proof. intros (Ho & _). by rewrite Ho. Qed.

(** C22: for every mnemonic other than [CFROUND] and [INEG_R], an
    instruction disassembles exactly as the instruction with its register
    bytes reduced modulo [REGISTER_COUNT as u8]: the text depends on the
    registers only through the registers of the VM they select. *)
Theorem fmt_normalize i name :
  register_divisor <> 0 -> INSTR_NAMES !! Z.to_nat (opcode i) = Some name ->
  reads_raw_dst name = false -> fmt i = fmt (normalize i).
Proof.
  intros Hrd Hname Hraw. pose proof (normalize_equiv i Hrd) as Heq.
  rewrite !fmt_as_decode. unfold decode.
  rewrite <- (decode_lookup_equiv _ _ Heq), Hname.
  destruct (register_divisor =? 0); [reflexivity|]. cbn [fmap result_fmap].
  by rewrite (classify_proper name Hraw i (normalize i) Heq).
Qed.
(** A positive divisor is a [u8] value, so the byte [register_divisor]
    is a register byte equivalent to [0]. *)
Lemma divisor_equiv_zero (o : Z) :
  0 < register_divisor -> instr_equiv (new o 0 0 0 0) (new o register_divisor 0 0 0).
Proof.
  intros Hrd. unfold instr_equiv, new; simpl. rewrite Z.mod_same, Z.mod_0_l by lia.
  repeat split.
Qed.

(** C33: among all mnemonics, [classify] respects the register reduction
    exactly on those whose arm does not print the raw [dst] byte: for
    [CFROUND] and [INEG_R], the bytes [0] and [REGISTER_COUNT as u8] select
    the same register but are classified differently. *)
Theorem classify_proper_iff name :
  0 < register_divisor ->
  Proper (instr_equiv ==> eq) (classify name) <-> reads_raw_dst name = false.
Proof.
  intros Hrd. split; [|apply classify_proper].
  intros Hp. destruct (reads_raw_dst name) eqn:Hraw; [exfalso|reflexivity].
  pose proof (Hp _ _ (divisor_equiv_zero 0 Hrd)) as E.
  unfold reads_raw_dst in Hraw.
  apply orb_true_iff in Hraw as [Hn | Hn]; apply String.eqb_eq in Hn as ->;
    cbn in E; injection E; lia.
Qed.

(** C31: the [INEG_R] arm breaks the register-reduction equivalence
    on every instruction it prints: a well-formed [INEG_R] instruction and
    its twin whose [dst] byte is larger by [REGISTER_COUNT as u8] select
    the same register, yet their disassembly differs. *)
Theorem fmt_ineg_r_not_equiv_invariant i :
  0 < register_divisor -> Instruction_wf i ->
  INSTR_NAMES !! Z.to_nat (opcode i) = Some "INEG_R" ->
  dst i + register_divisor < 256 ->
  Instruction_wf (dst_twin i register_divisor) /\
  instr_equiv i (dst_twin i register_divisor) /\
  fmt i <> fmt (dst_twin i register_divisor).
Proof.
  intros Hrd (Ho & Hd & Hs & Hm & Hx) Hname Hlt. unfold in_width in *.
  split_and!.
  - unfold Instruction_wf, dst_twin, new, in_width; simpl. lia.
  - unfold instr_equiv, dst_twin, new; simpl. split_and!; try reflexivity.
    rewrite <- Z.add_mod_idemp_r, Z.mod_same, Z.add_0_r by lia. reflexivity.
  - rewrite (fmt_ineg_r_eq i), (fmt_ineg_r_eq (dst_twin i register_divisor)) by (lia || exact Hname).
    unfold dst_twin, new; simpl. intros E. injection E as E.
    rewrite !append_string_nil in E. apply fmt_u_inj in E; lia.
Qed.

End RegEquiv.

Lemma fmt_normalize_witness :
  register_divisor <> 0 /\
  INSTR_NAMES !! Z.to_nat (opcode (new 0 9 10 0 0)) = Some "IADD_RS" /\
  reads_raw_dst "IADD_RS" = false /\
  fmt (new 0 9 10 0 0) = fmt (normalize (new 0 9 10 0 0)).
Proof.
  assert (Hn : INSTR_NAMES !! Z.to_nat (opcode (new 0 9 10 0 0)) = Some "IADD_RS")
    by (vm_compute; reflexivity).
  assert (Hr : reads_raw_dst "IADD_RS" = false) by reflexivity.
  split; [exact randomx_divisor_nonzero|]. split; [exact Hn|]. split; [exact Hr|].
  exact (fmt_normalize _ _ randomx_divisor_nonzero Hn Hr).
Defined.

Lemma classify_proper_iff_witness :
  0 < register_divisor /\ ~ Proper (instr_equiv ==> eq) (classify "CFROUND").
Proof.
  assert (Hrd : 0 < register_divisor) by (vm_compute; reflexivity).
  split; [exact Hrd|]. intros Hp.
  apply (classify_proper_iff "CFROUND" Hrd) in Hp. discriminate Hp.
Defined.

Lemma fmt_ineg_r_not_equiv_invariant_witness :
  0 < register_divisor /\ Instruction_wf (new 84 1 0 0 0) /\
  INSTR_NAMES !! Z.to_nat (opcode (new 84 1 0 0 0)) = Some "INEG_R" /\
  fmt (new 84 1 0 0 0) <> fmt (dst_twin (new 84 1 0 0 0) register_divisor).
Proof.
  assert (Hrd : 0 < register_divisor) by (vm_compute; reflexivity).
  assert (Hwf : Instruction_wf (new 84 1 0 0 0)) by (vm_compute; intuition discriminate).
  assert (Hn : INSTR_NAMES !! Z.to_nat (opcode (new 84 1 0 0 0)) = Some "INEG_R")
    by (vm_compute; reflexivity).
  assert (Hlt : dst (new 84 1 0 0 0) + register_divisor < 256) by (vm_compute; reflexivity).
  split_and!; [exact Hrd | exact Hwf | exact Hn |].
  exact (proj2 (proj2 (fmt_ineg_r_not_equiv_invariant _ Hrd Hwf Hn Hlt))).
Defined.
