(* ===== verification/ResultHash.v ===== *)
(** * [ToRawMut] for the result buffer

    Models [src/wrapper/src/result_hash.rs]: the trait [ToRawMut] (an empty
    value and a raw mutable pointer to its bytes) and its implementation for
    [ResultHash], the [RANDOMX_RESULT_SIZE]-byte buffer of the external crate
    [ccp_randomx_types] (the size, 32, is that crate's constant; neither the
    sources nor the spec state it). The trait is a class and a raw pointer is
    the byte offset it designates in the value's storage.

    No theorem is stated here: [empty] is a constant, and the one property
    [as_raw_mut] exists for (that native code writing through the pointer
    mutates [self]) depends on pointer provenance and the FFI call, which
    are not modelled; with a pointer that is an offset into [self] it would
    hold by construction. *)

From stdpp Require Import base list.
From Stdlib Require Import ZArith Lia.
From S2P Require Import Prelude.

Open Scope Z_scope.

(** [ccp_randomx_types::RANDOMX_RESULT_SIZE]. *)
Definition RANDOMX_RESULT_SIZE : nat := 32.

(** [ResultHash]: a newtype around [[u8; RANDOMX_RESULT_SIZE]]. *)
Record ResultHash := from_slice { hash_bytes : list Z }.

(** A raw pointer into a value's bytes: the offset of the byte it points to. *)
Record RawPtr := { ptr_offset : nat }.

Class ToRawMut (T : Type) := {
  empty : T;
  as_raw_mut : T -> RawPtr;
}.

#[export] Instance ResultHash_ToRawMut : ToRawMut ResultHash := {|
  empty := from_slice (replicate RANDOMX_RESULT_SIZE 0);
  (* [self.as_mut().as_mut_ptr()]: the first byte of the array *)
  as_raw_mut := fun _ => {| ptr_offset := 0 |};
|}.

