(* ===== verification/Census.v ===== *)
(** * A census of the disassembly over the opcode and modifier bytes

    The three parts of the instruction layer meet in one number. The
    opcode table ([Distribution.v]) gives the [ISTORE] mnemonic 16 of the
    256 opcode bytes; the store rule ([get_address_reg_dst] in
    [Instruction.v]) sends a store to L3 for the modifier bytes from
    [16 * STORE_L3_CONDITION] on; and the disassembler ([fmt] in
    [Disasm.v]) prints the space it is given. [l3_store_census] counts, for
    any register, immediate and configuration, the (opcode, modifier) byte
    pairs whose disassembly reads back (through [parse_asm]) as a store to
    L3: the product of the two counts, 16 * 32 = 512 of the 65536 pairs for
    RandomX. *)

From stdpp Require Import base list strings.
From Stdlib Require Import ZArith Lia.
From S2P Require Import Prelude Config Instruction Distribution Disasm.

Open Scope Z_scope.

(** A disassembly text that reads back as a store to the L3 scratchpad. *)
Definition is_l3_store (t : string) : bool :=
  match parse_asm t with
  | Some (AsmStore sp _ _ _) => String.eqb sp L3_LABEL
  | _ => false
  end.

Section Census.
Context `{VMConfig}.
Implicit Types i : Instruction.

(** [fmt] succeeds and its text is a store to L3. *)
Definition fmt_l3_store i : bool :=
  match fmt i with Ok t => is_l3_store t | Err _ => false end.

Lemma classify_store name i sp d off s :
  classify name i = AsmStore sp d off s -> name = "ISTORE" /\ sp = get_address_reg_dst i.
Proof.
  unfold classify.
  destruct (String.eqb_spec name "ISUB_R"); [destruct (negb _); discriminate|].
  destruct (String.eqb_spec name "ISTORE") as [->|]; [by intros [= <- _ _ _]|].
  repeat match goal with |- context [if ?b then _ else _] => destruct b end;
    intros Heq; inversion Heq.
Qed.

Lemma decode_classify i a :
  decode i = Ok a -> exists name, INSTR_NAMES !! Z.to_nat (opcode i) = Some name /\
                                  a = classify name i.
Proof.
  unfold decode. destruct (register_divisor =? 0); [discriminate|].
  destruct (INSTR_NAMES !! _) as [name|]; [|discriminate]. intros [= <-]. eauto.
Qed.

(** On a well-formed instruction, the disassembly is an L3 store exactly
    when the opcode names [ISTORE] and the modifier byte reaches the
    threshold. *)
Lemma fmt_l3_store_iff i :
  register_divisor <> 0 -> Instruction_wf i ->
  fmt_l3_store i = true <->
  INSTR_NAMES !! Z.to_nat (opcode i) = Some "ISTORE" /\ 16 * STORE_L3_CONDITION <= mod_ i.
Proof.
  intros Hrd Hwf. destruct (decode_wf i Hrd Hwf) as (a & Hd & Ha & _).
  unfold fmt_l3_store, is_l3_store. rewrite fmt_as_decode, Hd. cbn [fmap result_fmap].
  rewrite (parse_print a Ha). rewrite <- store_l3_iff.
  destruct (decode_classify i a Hd) as (name & Hname & ->). rewrite Hname.
  split.
  - destruct (classify name i) as [| | | sp ? ? ? | | | | |] eqn:Hc;
      intros Hsp; try discriminate Hsp.
    destruct (classify_store _ _ _ _ _ _ Hc) as [-> ->].
    apply String.eqb_eq in Hsp. by split.
  - intros [[= ->] Hl3]. unfold classify. simpl. rewrite Hl3. apply String.eqb_refl.
Qed.

Lemma ISTORE_opcodes :
  length (filter (fun o => INSTR_NAMES !! Z.to_nat o = Some "ISTORE") (seqZ 0 256)) = 16%nat.
Proof. vm_compute. reflexivity. Qed.

(** The count over any lists of opcode and modifier bytes, once the
    predicate splits into a condition on each byte. *)
Lemma l3_store_count d s x (lo lm : list Z) :
  (forall o m, o ∈ lo -> m ∈ lm ->
     fmt_l3_store (new o d s m x) = true <->
     INSTR_NAMES !! Z.to_nat o = Some "ISTORE" /\ 16 * STORE_L3_CONDITION <= m) ->
  length (filter (fun p => fmt_l3_store (new p.1 d s p.2 x) = true) (list_prod lo lm)) =
  (length (filter (fun o => INSTR_NAMES !! Z.to_nat o = Some "ISTORE") lo) *
   length (filter (fun m => (16 * STORE_L3_CONDITION <= m)%Z) lm))%nat.
Proof.
  intros Hsplit.
  rewrite (filter_ext_in _ (fun p => INSTR_NAMES !! Z.to_nat p.1 = Some "ISTORE" /\
                                     16 * STORE_L3_CONDITION <= p.2)).
  - exact (count_list_prod (fun o => INSTR_NAMES !! Z.to_nat o = Some "ISTORE")
                            (fun m => 16 * STORE_L3_CONDITION <= m) lo lm).
  - intros [o m] Hp. apply list_elem_of_In, in_prod_iff in Hp as [Ho Hm].
    apply Hsplit; by apply list_elem_of_In.
Qed.

(** C27: across all 65536 (opcode, modifier) byte pairs, with any
    register bytes and immediate and a threshold in [0, 16], the
    disassembly reads back as a store to L3 for exactly
    [16 * (256 - 16 * STORE_L3_CONDITION)] pairs: the 16 [ISTORE] opcodes
    of the table times the modifier bytes the store rule sends to L3
    (512 pairs for RandomX). *)
Theorem l3_store_census d s x :
  register_divisor <> 0 -> 0 <= STORE_L3_CONDITION <= 16 ->
  d ∈w 8 -> s ∈w 8 -> x ∈w 32 ->
  length (filter (fun p => fmt_l3_store (new p.1 d s p.2 x) = true)
                 (list_prod (seqZ 0 256) (seqZ 0 256))) =
  (16 * Z.to_nat (256 - 16 * STORE_L3_CONDITION)%Z)%nat.
Proof.
  intros Hrd HT Hd Hs Hx. rewrite l3_store_count.
  - rewrite ISTORE_opcodes, count_above_threshold by lia. reflexivity.
  - intros o m Ho Hm. seqZ_mem Ho. seqZ_mem Hm.
    apply fmt_l3_store_iff; [exact Hrd|]. unfold Instruction_wf, new, in_width in *; simpl. lia.
Qed.
End Census.

Lemma l3_store_census_witness :
  register_divisor <> 0 /\ 0 <= STORE_L3_CONDITION <= 16 /\
  length (filter (fun p => fmt_l3_store (new p.1 0 0 p.2 0) = true)
                 (list_prod (seqZ 0 256) (seqZ 0 256))) = 512%nat.
Proof.
  assert (HT : 0 <= STORE_L3_CONDITION <= 16) by (simpl; lia).
  split; [exact randomx_divisor_nonzero|]. split; [exact HT|].
  rewrite (l3_store_census 0 0 0 randomx_divisor_nonzero HT); [reflexivity | ..];
    unfold in_width; lia.
Defined.
